(** * grid-nativo: theme manager and scroll animations of [script.js]

    A shallow embedding of the two classes of [src/script.js]
    ([ThemeManager] and [AnimationManager]) together with the browser
    primitives they call, followed by the properties of the repository's
    specification that can be settled on it.

    Conventions of the embedding:
    - a JavaScript string is a [string]; its characters stand for UTF-16
      code units in the range 0..255;
    - [localStorage], inline styles and class lists are finite maps and
      finite sets ([gmap], [gset]);
    - a JavaScript Number that takes part in floating-point arithmetic is
      an IEEE 754 binary64 value ([spec_float] with [prec = 53] and
      [emax = 1024]);
    - a method that mutates [this] or the DOM is a function from the state
      before the call to the state after it. *)

From Stdlib Require Import ZArith Ascii String List Bool Lia.
From Stdlib Require Import Numbers.DecimalString.
From Stdlib Require Import Floats.SpecFloat.
From stdpp Require Import gmap strings list.

Local Open Scope string_scope.

(* ===================================================================== *)
(** * Built-in JavaScript operations used by the script                   *)
(* ===================================================================== *)

Module JS.

(** ** Strings *)

(** White space and line terminators of ECMAScript that fit in one
    byte: TAB, LF, VT, FF, CR, SP and NBSP. *)
Definition is_whitespace (c : ascii) : bool :=
  let n := nat_of_ascii c in
  ((9 <=? n)%nat && (n <=? 13)%nat) || (n =? 32)%nat || (n =? 160)%nat.

Fixpoint trimStart (s : string) : string :=
  match s with
  | String c s' => if is_whitespace c then trimStart s' else s
  | EmptyString => EmptyString
  end.

Fixpoint trimEnd (s : string) : string :=
  match s with
  | EmptyString => EmptyString
  | String c s' =>
      match trimEnd s' with
      | EmptyString => if is_whitespace c then EmptyString else String c EmptyString
      | t => String c t
      end
  end.

(** [s.trim()] *)
Definition trim (s : string) : string := trimEnd (trimStart s).

(** [s.replace(c, '')] for a one-character pattern [c]: only the first
    occurrence is removed, wherever it stands. *)
Fixpoint replace_first_with_empty (c : ascii) (s : string) : string :=
  match s with
  | EmptyString => EmptyString
  | String a s' => if Ascii.eqb a c then s' else String a (replace_first_with_empty c s')
  end.

(** [s.split('').map(char => char + char).join('')] *)
Fixpoint double_chars (s : string) : string :=
  match s with
  | EmptyString => EmptyString
  | String c s' => String c (String c (double_chars s'))
  end.

(** [s.substr(start, len)] for non-negative arguments. *)
Definition substr (start len : nat) (s : string) : string :=
  String.substring start len s.

(** Truthiness of a value that is either [null] ([None]) or a string:
    [null] and the empty string are falsy. *)
Definition truthy (v : option string) : bool :=
  match v with
  | None => false
  | Some s => negb (String.eqb s "")
  end.

(** ** [parseInt(s, 16)] *)

(** The result of [parseInt]: [NaN] or an integer.  The result [-0] is
    represented by [Int 0]; both print as ["0"]. *)
Inductive int_or_nan : Type :=
| NaN
| Int (z : Z).

Definition hex_digit_value (c : ascii) : option Z :=
  let n := Z.of_nat (nat_of_ascii c) in
  if ((48 <=? n) && (n <=? 57))%Z then Some (n - 48)%Z
  else if ((97 <=? n) && (n <=? 102))%Z then Some (n - 87)%Z
  else if ((65 <=? n) && (n <=? 70))%Z then Some (n - 55)%Z
  else None.

Definition is_hex_digit (c : ascii) : bool :=
  match hex_digit_value c with Some _ => true | None => false end.

(** The values of the longest prefix of [s] made of radix-16 digits. *)
Fixpoint leading_hex_digits (s : string) : list Z :=
  match s with
  | EmptyString => []
  | String c s' =>
      match hex_digit_value c with
      | Some d => d :: leading_hex_digits s'
      | None => []
      end
  end.

Definition strip_sign (s : string) : Z * string :=
  match s with
  | String "-" r => ((-1)%Z, r)
  | String "+" r => (1%Z, r)
  | _ => (1%Z, s)
  end.

Definition strip_0x (s : string) : string :=
  match s with
  | String "0" (String c r) =>
      if Ascii.eqb c "x" || Ascii.eqb c "X" then r else s
  | _ => s
  end.

(** [parseInt(s, 16)]: leading white space is skipped, then an optional
    sign, then an optional [0x]/[0X] prefix; the longest run of
    hexadecimal digits that follows is the value, and an empty run gives
    [NaN].  Exact for the (two-character) inputs of [hexToRgb]. *)
Definition parseInt16 (s : string) : int_or_nan :=
  let s1 := trimStart s in
  let '(sign, s2) := strip_sign s1 in
  let s3 := strip_0x s2 in
  match leading_hex_digits s3 with
  | [] => NaN
  | ds => Int (sign * fold_left (fun acc d => 16 * acc + d)%Z ds 0%Z)
  end.

(** Decimal rendering of an integer, as a template literal prints it. *)
Definition Z_to_string (z : Z) : string :=
  NilZero.string_of_int (Z.to_int z).

(** [`${v}`] for a result of [parseInt]. *)
Definition int_or_nan_to_string (v : int_or_nan) : string :=
  match v with
  | NaN => "NaN"
  | Int z => Z_to_string z
  end.

(** ** Numbers *)

(** IEEE 754 binary64. *)
Definition prec : Z := 53.
Definition emax : Z := 1024.

Abbreviation number := spec_float.

(** The Number denoted by an integer (exact below [2^53]). *)
Definition Number_of_Z (z : Z) : number :=
  binary_normalize prec emax z 0 false.

Definition num_sub (x y : number) : number := SFsub prec emax x y.
Definition num_mul (x y : number) : number := SFmul prec emax x y.
Definition num_div (x y : number) : number := SFdiv prec emax x y.

(** The literals of the script. *)
Definition num_100 : number := Eval vm_compute in Number_of_Z 100.
Definition num_0_1 : number :=
  Eval vm_compute in num_div (Number_of_Z 1) (Number_of_Z 10).
Definition num_neg_0_2 : number :=
  Eval vm_compute in SFopp (num_div (Number_of_Z 2) (Number_of_Z 10)).

(** [Math.min(...args)]: starting from [+Infinity], a [NaN] argument
    ends the scan with [NaN]; [-0] is lower than [+0]; otherwise the
    lowest argument is kept. *)
Fixpoint Math_min_from (lowest : number) (args : list number) : number :=
  match args with
  | [] => lowest
  | n :: rest =>
      match n, lowest with
      | S754_nan, _ => S754_nan
      | S754_zero true, S754_zero false => Math_min_from n rest
      | _, _ =>
          if SFltb n lowest then Math_min_from n rest
          else Math_min_from lowest rest
      end
  end.

Definition Math_min (args : list number) : number :=
  Math_min_from (S754_infinity false) args.

(** [`${x}`] for a Number, on the values whose rendering does not need
    the shortest-round-trip digit generation: [NaN], the infinities, the
    zeros and the integers below [2^53] in magnitude.  [None] on every
    other value (fractions and larger magnitudes), whose digits are not
    modelled. *)
Definition Number_toString (x : number) : option string :=
  match x with
  | S754_nan => Some "NaN"
  | S754_infinity s => Some (if s then "-Infinity" else "Infinity")
  | S754_zero _ => Some "0"
  | S754_finite s m e =>
      if valid_binary prec emax x && (e <=? 0)%Z
         && (Z.pos m mod 2 ^ (- e) =? 0)%Z
      then Some ((if s then "-" else "") ++ Z_to_string (Z.pos m / 2 ^ (- e)))
      else None
  end.

(** The text produced by a template literal with one Number hole,
    [`before${n}after`], or a plain string literal. *)
Inductive text : Type :=
| Literal (s : string)
| Template (before : string) (n : number) (after : string).

Definition text_to_string (t : text) : option string :=
  match t with
  | Literal s => Some s
  | Template before n after =>
      match Number_toString n with
      | Some d => Some (before ++ d ++ after)
      | None => None
      end
  end.

(** ** Values passed to the public API *)

Inductive value : Type :=
| VUndefined
| VNull
| VBoolean (b : bool)
| VNumber (n : number)
| VString (s : string)
| VObject (ref : nat).

(** [v === s] for a string literal [s]. *)
Definition strict_equals_string (v : value) (s : string) : bool :=
  match v with
  | VString t => String.eqb t s
  | _ => false
  end.

End JS.

(* ===================================================================== *)
(** * DOM elements                                                        *)
(* ===================================================================== *)

Module Dom.

(** What the script reads and writes of an element: its class list and
    the custom properties of its inline style. *)
Record element : Type := {
  classList : gset string;
  style : gmap string string
}.

(** [el.classList.toggle(token, force)] *)
Definition classList_toggle (token : string) (force : bool) (el : element) : element :=
  {| classList := if force then {[ token ]} ∪ classList el
                  else classList el ∖ {[ token ]};
     style := style el |}.

(** [el.classList.add(token)] *)
Definition classList_add (token : string) (el : element) : element :=
  {| classList := {[ token ]} ∪ classList el; style := style el |}.

(** [el.classList.remove(token)] *)
Definition classList_remove (token : string) (el : element) : element :=
  {| classList := classList el ∖ {[ token ]}; style := style el |}.

(** [el.style.setProperty(name, value)]; an empty value removes the
    property. *)
Definition setProperty (name value : string) (el : element) : element :=
  {| classList := classList el;
     style := if String.eqb value "" then delete name (style el)
              else <[ name := value ]> (style el) |}.

End Dom.

(* ===================================================================== *)
(** * ThemeManager                                                        *)
(* ===================================================================== *)

Module ThemeManager.
Import JS Dom.

(** The part of the browser the theme manager works on.  The root and the
    two icons are three values of their own: the pages described are those
    where the elements found under the ids ['sun-icon'] and ['moon-icon']
    are not the root element itself.  A page whose root carries one of
    these ids (where a change of the root's class list is also a change of
    that icon's) is not among them. *)
Record browser : Type := {
  (** [localStorage] *)
  localStorage : gmap string string;
  (** [window.matchMedia('(prefers-color-scheme: dark)').matches], which
      only the constructor reads *)
  mediaQuery_matches : bool;
  (** number of ['change'] listeners added to the media query *)
  mediaQuery_listeners : nat;
  (** [document.documentElement] *)
  htmlElement : element;
  (** [document.getElementById('theme-toggle')]: [None] when absent,
      otherwise the number of ['click'] listeners added to it *)
  themeToggle : option nat;
  (** [document.getElementById('sun-icon')] *)
  sunIcon : option element;
  (** [document.getElementById('moon-icon')] *)
  moonIcon : option element;
  (** number of pending [setTimeout] callbacks that remove the
      ['theme-transition'] class *)
  pendingTimeouts : nat
}.

(** A constructed [ThemeManager] together with the browser it lives in. *)
Record state : Type := {
  page : browser;
  currentTheme : string
}.

Definition set_localStorage (m : gmap string string) (b : browser) : browser :=
  {| localStorage := m;
     mediaQuery_matches := mediaQuery_matches b;
     mediaQuery_listeners := mediaQuery_listeners b;
     htmlElement := htmlElement b;
     themeToggle := themeToggle b;
     sunIcon := sunIcon b;
     moonIcon := moonIcon b;
     pendingTimeouts := pendingTimeouts b |}.

Definition set_htmlElement (el : element) (b : browser) : browser :=
  {| localStorage := localStorage b;
     mediaQuery_matches := mediaQuery_matches b;
     mediaQuery_listeners := mediaQuery_listeners b;
     htmlElement := el;
     themeToggle := themeToggle b;
     sunIcon := sunIcon b;
     moonIcon := moonIcon b;
     pendingTimeouts := pendingTimeouts b |}.

Definition set_icons (sun moon : option element) (b : browser) : browser :=
  {| localStorage := localStorage b;
     mediaQuery_matches := mediaQuery_matches b;
     mediaQuery_listeners := mediaQuery_listeners b;
     htmlElement := htmlElement b;
     themeToggle := themeToggle b;
     sunIcon := sun;
     moonIcon := moon;
     pendingTimeouts := pendingTimeouts b |}.

Definition set_pendingTimeouts (n : nat) (b : browser) : browser :=
  {| localStorage := localStorage b;
     mediaQuery_matches := mediaQuery_matches b;
     mediaQuery_listeners := mediaQuery_listeners b;
     htmlElement := htmlElement b;
     themeToggle := themeToggle b;
     sunIcon := sunIcon b;
     moonIcon := moonIcon b;
     pendingTimeouts := n |}.

Definition set_listeners (media : nat) (toggle : option nat) (b : browser) : browser :=
  {| localStorage := localStorage b;
     mediaQuery_matches := mediaQuery_matches b;
     mediaQuery_listeners := media;
     htmlElement := htmlElement b;
     themeToggle := toggle;
     sunIcon := sunIcon b;
     moonIcon := moonIcon b;
     pendingTimeouts := pendingTimeouts b |}.

(** [localStorage.getItem('theme')]; [None] is [null]. *)
Definition getItem_theme (b : browser) : option string :=
  localStorage b !! "theme".

(** The theme chosen from the operating system's preference. *)
Definition system_theme (matches : bool) : string :=
  if matches then "dark" else "light".

(** [getInitialTheme()] *)
Definition getInitialTheme (b : browser) : string :=
  let savedTheme := getItem_theme b in
  match savedTheme with
  | Some saved =>
      if truthy savedTheme
         && (String.eqb saved "light" || String.eqb saved "dark")
      then saved
      else system_theme (mediaQuery_matches b)
  | None => system_theme (mediaQuery_matches b)
  end.

(** [hexToRgb(hex)]; [None] is [null]. *)
Definition hexToRgb (hex : string) : option string :=
  let hex1 := replace_first_with_empty "#" hex in
  let hex2 := if (String.length hex1 =? 3)%nat then double_chars hex1 else hex1 in
  if negb (String.length hex2 =? 6)%nat then None
  else
    let r := parseInt16 (substr 0 2 hex2) in
    let g := parseInt16 (substr 2 2 hex2) in
    let b := parseInt16 (substr 4 2 hex2) in
    Some (int_or_nan_to_string r ++ ", " ++ int_or_nan_to_string g
          ++ ", " ++ int_or_nan_to_string b).

(** The keys of the [colors] object, in insertion order. *)
Definition color_names : list string :=
  ["primary"; "secondary"; "accent"; "gaming"; "tech"; "media"].

Section WithComputedStyle.

(** [getComputedStyle(el).getPropertyValue(name)]: fixed by the page's
    style sheets, which are not part of the script. *)
Variable getPropertyValue : element -> string -> string.

(** The [colors] object of [updateRgbVariables], as its entries. *)
Definition colors (root : element) : list (string * string) :=
  map (fun name => (name, trim (getPropertyValue root ("--color-" ++ name))))
      color_names.

(** The body of the [forEach] of [updateRgbVariables]. *)
Definition updateRgbVariable (root : element) (entry : string * string) : element :=
  let '(name, hex) := entry in
  let rgb := hexToRgb hex in
  match rgb with
  | Some v =>
      if truthy rgb then setProperty ("--color-" ++ name ++ "-rgb") v root
      else root
  | None => root
  end.

(** [updateRgbVariables()], on the root element. *)
Definition updateRgbVariables (root : element) : element :=
  fold_left updateRgbVariable (colors root) root.

(** [addTransitionClass()] *)
Definition addTransitionClass (b : browser) : browser :=
  set_pendingTimeouts (S (pendingTimeouts b))
    (set_htmlElement (classList_add "theme-transition" (htmlElement b)) b).

(** One of the callbacks scheduled by [addTransitionClass] runs. *)
Definition transitionTimeout (st : state) : state :=
  match pendingTimeouts (page st) with
  | O => st
  | S pending =>
      {| page :=
           set_pendingTimeouts pending
             (set_htmlElement
                (classList_remove "theme-transition" (htmlElement (page st)))
                (page st));
         currentTheme := currentTheme st |}
  end.

(** [applyTheme(theme)]; every caller passes a string. *)
Definition applyTheme (theme : string) (st : state) : state :=
  let isDark := String.eqb theme "dark" in
  let b0 := page st in
  let b1 := set_htmlElement
              (classList_toggle "dark-mode" isDark (htmlElement b0)) b0 in
  let b2 :=
    match sunIcon b1, moonIcon b1 with
    | Some sun, Some moon =>
        set_icons (Some (classList_toggle "hidden" isDark sun))
                  (Some (classList_toggle "hidden" (negb isDark) moon)) b1
    | _, _ => b1
    end in
  let b3 := set_localStorage (<[ "theme" := theme ]> (localStorage b2)) b2 in
  let b4 := set_htmlElement (updateRgbVariables (htmlElement b3)) b3 in
  {| page := addTransitionClass b4; currentTheme := theme |}.

(** [toggleTheme()] *)
Definition toggleTheme (st : state) : state :=
  let newTheme :=
    if String.eqb (currentTheme st) "light" then "dark" else "light" in
  applyTheme newTheme st.

(** [handleSystemThemeChange(e)], with [matches] for [e.matches]. *)
Definition handleSystemThemeChange (matches : bool) (st : state) : state :=
  if negb (truthy (getItem_theme (page st)))
  then applyTheme (system_theme matches) st
  else st.

(** [setTheme(theme)] *)
Definition setTheme (theme : value) (st : state) : state :=
  if strict_equals_string theme "light" || strict_equals_string theme "dark"
  then match theme with
       | VString s => applyTheme s st
       | _ => st
       end
  else st.

(** [getTheme()] *)
Definition getTheme (st : state) : string := currentTheme st.

(** [init()] *)
Definition init (st : state) : state :=
  let st1 := applyTheme (currentTheme st) st in
  let b1 := page st1 in
  let b2 := set_listeners (S (mediaQuery_listeners b1))
              (match themeToggle b1 with
               | Some clicks => Some (S clicks)
               | None => None
               end) b1 in
  {| page := set_htmlElement (updateRgbVariables (htmlElement b2)) b2;
     currentTheme := currentTheme st1 |}.

(** [new ThemeManager()] *)
Definition constructor (b : browser) : state :=
  init {| page := b; currentTheme := getInitialTheme b |}.

(** The calls the page can make on a constructed manager. *)
Inductive operation : Type :=
| OpToggleTheme
| OpSetTheme (theme : value)
| OpSystemThemeChange (matches : bool)
| OpTransitionTimeout.

Definition run_operation (op : operation) (st : state) : state :=
  match op with
  | OpToggleTheme => toggleTheme st
  | OpSetTheme theme => setTheme theme st
  | OpSystemThemeChange matches => handleSystemThemeChange matches st
  | OpTransitionTimeout => transitionTimeout st
  end.

(** The states a manager goes through: construction, then any
    sequence of calls. *)
Inductive reachable : state -> Prop :=
| reachable_constructor (b : browser) : reachable (constructor b)
| reachable_operation (op : operation) (st : state) :
    reachable st -> reachable (run_operation op st).

End WithComputedStyle.

End ThemeManager.

(* ===================================================================== *)
(** * AnimationManager                                                    *)
(* ===================================================================== *)

Module AnimationManager.
Import JS.

(** DOM nodes are named by numbers. *)
Definition node : Type := nat.

(** The part of the document the animation manager works on. *)
Record state : Type := {
  (** for a node with a parent, [Array.from(node.parentNode.children)];
      no entry when [node.parentNode] is [null] *)
  parentChildren : gmap node (list node);
  (** the targets the intersection observer currently observes *)
  observed : gset node;
  (** [node.classList], empty when there is no entry *)
  classLists : gmap node (gset string);
  (** the text the script last assigned to [node.style.animationDelay] *)
  animationDelay : gmap node text;
  (** the text the script last assigned to [node.style.transform] *)
  transform : gmap node text;
  (** the text the script last assigned to [node.style.width]; this
      records the assignment, not the style that results from it: the
      browser keeps the previous width when the text is not a valid
      width, such as ['NaN%'] or a negative percentage *)
  width : gmap node text
}.

(** An [IntersectionObserverEntry]. *)
Record entry : Type := {
  target : node;
  isIntersecting : bool
}.

(** How a callback ends: it returns, or an exception leaves it. In both
    cases the effects made so far remain. *)
Inductive outcome : Type :=
| Returned (st : state)
| Threw (st : state).

Definition final_state (o : outcome) : state :=
  match o with Returned st | Threw st => st end.

(** [array.indexOf(x)]: the first position of [x], or [-1]. *)
Fixpoint indexOf_from (i : Z) (x : node) (l : list node) : Z :=
  match l with
  | [] => (-1)%Z
  | y :: l' => if Nat.eqb y x then i else indexOf_from (i + 1)%Z x l'
  end.

Definition indexOf (x : node) (l : list node) : Z := indexOf_from 0 x l.

(** The delay computed for position [index]: [index * 0.1]. *)
Definition stagger_delay (index : Z) : number :=
  num_mul (Number_of_Z index) num_0_1.

(** The body of the [forEach] of the observer's callback. *)
Definition on_entry (e : entry) (st : state) : outcome :=
  if isIntersecting e then
    match parentChildren st !! target e with
    | None => Threw st
    | Some siblings =>
        let index := indexOf (target e) siblings in
        Returned
          {| parentChildren := parentChildren st;
             observed := observed st ∖ {[ target e ]};
             classLists :=
               <[ target e :=
                    {[ "animate-in" ]} ∪ default ∅ (classLists st !! target e) ]>
                 (classLists st);
             animationDelay :=
               <[ target e := Template "" (stagger_delay index) "s" ]>
                 (animationDelay st);
             transform := transform st;
             width := width st |}
    end
  else Returned st.

(** The observer's callback, [entries.forEach(...)]. *)
Fixpoint callback (entries : list entry) (st : state) : outcome :=
  match entries with
  | [] => Returned st
  | e :: rest =>
      match on_entry e st with
      | Returned st' => callback rest st'
      | Threw st' => Threw st'
      end
  end.

(** [setupScrollAnimations()]: [items] are the nodes selected by
    ['.bento-item'], in document order; without [IntersectionObserver]
    nothing is observed. *)
Definition setupScrollAnimations (hasIntersectionObserver : bool)
    (items : list node) (st : state) : state :=
  {| parentChildren := parentChildren st;
     observed := if hasIntersectionObserver then list_to_set items else ∅;
     classLists := classLists st;
     animationDelay := animationDelay st;
     transform := transform st;
     width := width st |}.

(** The browser delivers an entry only for a target that the observer
    observes when the callback starts. *)
Definition deliverable (entries : list entry) (st : state) : Prop :=
  Forall (fun e => target e ∈ observed st) entries.

(** A run of the observer: successive deliveries, each deliverable when
    its callback starts.  Between two deliveries the page may change the
    document in any way, but not the set of observed targets: the observer
    is a local constant of [setupScrollAnimations], so only its own
    callback reaches it.  [observer_run st ds st'] holds when the
    deliveries [ds] lead from [st] to [st']. *)
Inductive observer_run : state -> list (list entry) -> state -> Prop :=
| run_nil (st : state) : observer_run st [] st
| run_cons (st : state) (entries : list entry) (next : state)
    (ds : list (list entry)) (st' : state) :
    deliverable entries st ->
    observed next = observed (final_state (callback entries st)) ->
    observer_run next ds st' ->
    observer_run st (entries :: ds) st'.

(** [handleHoverEnter(e)] and [handleHoverLeave(e)], with [item] for
    [e.currentTarget]. *)
Definition set_transform (item : node) (t : text) (st : state) : state :=
  {| parentChildren := parentChildren st;
     observed := observed st;
     classLists := classLists st;
     animationDelay := animationDelay st;
     transform := <[ item := t ]> (transform st);
     width := width st |}.

Definition handleHoverEnter (item : node) (st : state) : state :=
  set_transform item (Literal "translateY(-8px) scale(1.02)") st.

Definition handleHoverLeave (item : node) (st : state) : state :=
  set_transform item (Literal "") st.

(** What a scroll event finds in the window and the document. *)
Record viewport : Type := {
  (** [window.pageYOffset] *)
  pageYOffset : number;
  (** [document.body.scrollHeight] *)
  scrollHeight : number;
  (** [window.innerHeight] *)
  innerHeight : number;
  (** the nodes selected by ['.hero-visual img, .screen-mockup img'] *)
  parallaxItems : list node
}.

(** [maxScroll] of the scroll listener. *)
Definition maxScroll (v : viewport) : number :=
  num_sub (scrollHeight v) (innerHeight v).

(** [scrollProgress] of the scroll listener. *)
Definition scrollProgress (v : viewport) : number :=
  num_mul (num_div (pageYOffset v) (maxScroll v)) num_100.

(** The Number printed into the bar's width,
    [Math.min(scrollProgress, 100)]. *)
Definition clampedProgress (v : viewport) : number :=
  Math_min [scrollProgress v; num_100].

(** The scroll listener installed by [setupParallaxEffects()];
    [scrollProgressBar] is the node selected by ['.scroll-progress-bar']
    at set-up time, if any. *)
Definition onScroll (scrollProgressBar : option node) (v : viewport)
    (st : state) : state :=
  let scrolled := pageYOffset v in
  let st1 :=
    match scrollProgressBar with
    | Some bar =>
        {| parentChildren := parentChildren st;
           observed := observed st;
           classLists := classLists st;
           animationDelay := animationDelay st;
           transform := transform st;
           width := <[ bar := Template "" (clampedProgress v) "%" ]> (width st) |}
    | None => st
    end in
  fold_left
    (fun acc item =>
       let rate := num_mul scrolled num_neg_0_2 in
       set_transform item (Template "translate3d(0, " rate "px, 0)") acc)
    (parallaxItems v) st1.

End AnimationManager.

(* ===================================================================== *)
(** * Notions of the specification, and sample inputs                     *)
(* ===================================================================== *)

Module Spec.
Import JS Dom ThemeManager.

(** The two members of the theme enumeration. *)
Definition valid_theme (t : string) : Prop := t = "light" \/ t = "dark".

(** The in-memory theme is valid and the persisted value is exactly it. *)
Definition theme_invariant (st : ThemeManager.state) : Prop :=
  valid_theme (currentTheme st)
  /\ getItem_theme (page st) = Some (currentTheme st).

(** A page without style sheets: every computed custom property is
    empty. *)
Definition no_stylesheet : element -> string -> string := fun _ _ => "".

Definition empty_element : element := {| classList := ∅; style := ∅ |}.

(** A page with the toggle button and both icons, with [stored] in
    [localStorage]. *)
Definition sample_browser (stored : gmap string string) (dark : bool) : browser :=
  {| localStorage := stored;
     mediaQuery_matches := dark;
     mediaQuery_listeners := 0;
     htmlElement := empty_element;
     themeToggle := Some 0%nat;
     sunIcon := Some empty_element;
     moonIcon := Some empty_element;
     pendingTimeouts := 0 |}.

Definition sample_state (stored : gmap string string) (current : string) : ThemeManager.state :=
  {| page := sample_browser stored false; currentTheme := current |}.

(** *** Hexadecimal colours, in the words of the specification *)

(** The position of a character in a string, counted from 0. *)
Fixpoint position (c : ascii) (s : string) : option Z :=
  match s with
  | EmptyString => None
  | String d rest =>
      if Ascii.eqb c d then Some 0%Z else option_map Z.succ (position c rest)
  end.

(** The value of a hexadecimal digit, in either case. *)
Definition hex_digit (c : ascii) : option Z :=
  match position c "0123456789abcdef" with
  | Some v => Some v
  | None => option_map (Z.add 10) (position c "ABCDEF")
  end.

(** The colour component written by the digits [hi lo]. *)
Definition component (hi lo : ascii) : option Z :=
  match hex_digit hi, hex_digit lo with
  | Some h, Some l => Some (16 * h + l)%Z
  | _, _ => None
  end.

(** The comma-separated decimal triplet ['R, G, B']. *)
Definition triplet (r g b : Z) : string :=
  Z_to_string r ++ ", " ++ Z_to_string g ++ ", " ++ Z_to_string b.

(** Normalization: a leading ['#'] is stripped. *)
Definition strip_leading_hash (hex : string) : string :=
  match hex with
  | String "#" rest => rest
  | _ => hex
  end.

(** The conversion the specification describes: a string of three or six
    hexadecimal digits, with or without a leading ['#'], denotes the
    triplet of its components, three digits being expanded by doubling;
    every other string is malformed and denotes nothing. *)
Definition rgb_of_hex (hex : string) : option string :=
  match list_ascii_of_string (strip_leading_hash hex) with
  | [r; g; b] =>
      match component r r, component g g, component b b with
      | Some vr, Some vg, Some vb => Some (triplet vr vg vb)
      | _, _, _ => None
      end
  | [r1; r2; g1; g2; b1; b2] =>
      match component r1 r2, component g1 g2, component b1 b2 with
      | Some vr, Some vg, Some vb => Some (triplet vr vg vb)
      | _, _, _ => None
      end
  | _ => None
  end.

Definition malformed_hex (hex : string) : Prop := rgb_of_hex hex = None.

(** The normalization [hexToRgb] performs before its length test: the
    first ['#'] is removed and a three-character rest is doubled. *)
Definition normalized (hex : string) : string :=
  let hex1 := replace_first_with_empty "#" hex in
  if (String.length hex1 =? 3)%nat then double_chars hex1 else hex1.

(** The style variable derived from the colour [name]. *)
Definition rgb_variable (name : string) : string := "--color-" ++ name ++ "-rgb".

(** The [setProperty] calls of one [updateRgbVariables()], in order, as
    pairs of a variable and the value written to it. *)
Definition rgb_writes (css : element -> string -> string) (root : element)
  : list (string * string) :=
  flat_map
    (fun entry : string * string =>
       match hexToRgb (snd entry) with
       | Some v => if truthy (Some v) then [(rgb_variable (fst entry), v)] else []
       | None => []
       end)
    (colors css root).

(** One of these calls. *)
Definition apply_write (el : element) (w : string * string) : element :=
  setProperty (fst w) (snd w) el.

(** A page whose style sheets give the colour [name] the value [hex] and
    no other custom property. *)
Definition stylesheet_with (name hex : string) : element -> string -> string :=
  fun _ property => if String.eqb property ("--color-" ++ name) then hex else "".

(** *** Enumeration of the characters *)

Definition all_ascii : list ascii := map ascii_of_nat (seq 0 256).

(** [parseInt] reads two hexadecimal digits as their component. *)
Definition parse_pair_ok (hi lo : ascii) : bool :=
  match component hi lo with
  | Some v =>
      match parseInt16 (String hi (String lo EmptyString)) with
      | Int z => (z =? v)%Z
      | NaN => false
      end
  | None => true
  end.

(** *** Entrance animations *)

(** The entrance animation has been applied to [t]: its delay is 0.1
    times its position among the children of its parent in [dom], it
    carries the class ['animate-in'], and it is no longer observed. *)
Definition animated (dom : gmap AnimationManager.node (list AnimationManager.node))
    (st : AnimationManager.state) (t : AnimationManager.node) : Prop :=
  exists siblings,
    dom !! t = Some siblings
    /\ AnimationManager.animationDelay st !! t
       = Some (Template ""
                 (num_mul (Number_of_Z (AnimationManager.indexOf t siblings)) num_0_1)
                 "s")
    /\ "animate-in" ∈ default ∅ (AnimationManager.classLists st !! t)
    /\ t ∉ AnimationManager.observed st.

(** A document with the three children [4], [5] and [6] of one parent,
    all observed. *)
Definition sample_document : AnimationManager.state :=
  {| AnimationManager.parentChildren :=
       {[ 4%nat := [4; 5; 6]%nat; 5%nat := [4; 5; 6]%nat; 6%nat := [4; 5; 6]%nat ]};
     AnimationManager.observed := {[ 4%nat; 5%nat; 6%nat ]};
     AnimationManager.classLists := ∅;
     AnimationManager.animationDelay := ∅;
     AnimationManager.transform := ∅;
     AnimationManager.width := ∅ |}.

(** *** Scrolling *)

(** A Number that is neither [NaN] nor an infinity. *)
Definition is_finite (x : number) : bool :=
  match x with
  | S754_zero _ | S754_finite _ _ _ => true
  | S754_infinity _ | S754_nan => false
  end.

(** A document [height] pixels high in a window [window] pixels high,
    scrolled to [offset] pixels. *)
Definition sample_viewport (offset height window : Z) : AnimationManager.viewport :=
  {| AnimationManager.pageYOffset := Number_of_Z offset;
     AnimationManager.scrollHeight := Number_of_Z height;
     AnimationManager.innerHeight := Number_of_Z window;
     AnimationManager.parallaxItems := [] |}.

(** A document without nodes. *)
Definition empty_document : AnimationManager.state :=
  {| AnimationManager.parentChildren := ∅;
     AnimationManager.observed := ∅;
     AnimationManager.classLists := ∅;
     AnimationManager.animationDelay := ∅;
     AnimationManager.transform := ∅;
     AnimationManager.width := ∅ |}.

End Spec.

(* ===================================================================== *)
(** * Further notions used to describe the behaviour of the script        *)
(* ===================================================================== *)

Module Notions.
Import JS Dom ThemeManager.

(** *** Theme manager *)

(** The document shows the current theme: the root carries ['dark-mode']
    exactly when the theme is ['dark'], and, when both icons exist, the
    sun is hidden exactly in the dark theme and the moon exactly
    otherwise. *)
Definition dom_in_sync (st : ThemeManager.state) : Prop :=
  ("dark-mode" ∈ classList (htmlElement (page st)) <-> currentTheme st = "dark")
  /\ (forall sun moon,
        sunIcon (page st) = Some sun -> moonIcon (page st) = Some moon ->
        ("hidden" ∈ classList sun <-> currentTheme st = "dark")
        /\ ("hidden" ∈ classList moon <-> currentTheme st <> "dark")).

(** While the transition class is on the root, a timeout that removes it
    is pending. *)
Definition transition_guarded (st : ThemeManager.state) : Prop :=
  "theme-transition" ∈ classList (htmlElement (page st)) ->
  (0 < pendingTimeouts (page st))%nat.

(** [n] of the pending timeouts fire, one after the other. *)
Fixpoint fire_timeouts (n : nat) (st : ThemeManager.state) : ThemeManager.state :=
  match n with
  | O => st
  | S k => fire_timeouts k (transitionTimeout st)
  end.

(** A sequence of calls on the manager, in order. *)
Definition run_operations (css : element -> string -> string)
    (ops : list operation) (st : ThemeManager.state) : ThemeManager.state :=
  fold_left (fun acc op => run_operation css op acc) ops st.

(** The string contains the character ['#']. *)
Fixpoint has_hash (s : string) : bool :=
  match s with
  | EmptyString => false
  | String c rest => Ascii.eqb c "#" || has_hash rest
  end.

(** What [parseInt] can return for a two-character string. *)
Definition in_pair_range (v : int_or_nan) : bool :=
  match v with
  | NaN => true
  | Int z => ((-15 <=? z) && (z <=? 255))%Z
  end.

Definition pair_in_range (hi lo : ascii) : bool :=
  in_pair_range (parseInt16 (String hi (String lo EmptyString))).

(** *** Numbers *)

(** The sign bit of a zero or of a finite non-zero Number. *)
Definition sign_of (x : number) : bool :=
  match x with
  | S754_zero s | S754_finite s _ _ | S754_infinity s => s
  | S754_nan => false
  end.

(** [x] is a Number other than [NaN], with sign bit [s]. *)
Definition has_sign (s : bool) (x : number) : Prop :=
  match x with
  | S754_zero s' | S754_finite s' _ _ | S754_infinity s' => s' = s
  | S754_nan => False
  end.

Definition is_zero (x : number) : bool :=
  match x with S754_zero _ => true | _ => false end.

(** *** Animation manager *)

(** The targets of the intersecting entries of a delivery. *)
Definition intersecting_targets (entries : list AnimationManager.entry)
  : gset AnimationManager.node :=
  list_to_set
    (map AnimationManager.target
       (List.filter AnimationManager.isIntersecting entries)).

(** The transform a scroll event gives to every parallax image. *)
Definition parallax_transform (v : AnimationManager.viewport) : text :=
  Template "translate3d(0, "
    (num_mul (AnimationManager.pageYOffset v) num_neg_0_2) "px, 0)".

End Notions.

(* ===================================================================== *)
(** * Properties of ThemeManager                                          *)
(* ===================================================================== *)

Import JS Dom ThemeManager Spec Notions.

Section ThemeFacts.

Variable css : element -> string -> string.

Lemma applyTheme_currentTheme (theme : string) (st : ThemeManager.state) :
  currentTheme (applyTheme css theme st) = theme.
Proof. reflexivity. Qed.

Lemma applyTheme_stored (theme : string) (st : ThemeManager.state) :
  getItem_theme (page (applyTheme css theme st)) = Some theme.
Proof.
  unfold applyTheme, getItem_theme.
  destruct (page st) as [ls mm ml html tt sun moon pt]; simpl.
  destruct sun, moon; simpl; apply lookup_insert_eq.
Qed.

Lemma applyTheme_invariant (theme : string) (st : ThemeManager.state) :
  valid_theme theme -> theme_invariant (applyTheme css theme st).
Proof.
  intros Hv. split.
  - rewrite applyTheme_currentTheme. exact Hv.
  - rewrite applyTheme_stored, applyTheme_currentTheme. reflexivity.
Qed.

Lemma system_theme_valid (matches : bool) : valid_theme (system_theme matches).
Proof. destruct matches; [right | left]; reflexivity. Qed.

Lemma toggleTheme_currentTheme (st : ThemeManager.state) :
  currentTheme (toggleTheme css st)
  = if String.eqb (currentTheme st) "light" then "dark" else "light".
Proof. reflexivity. Qed.

Lemma toggleTheme_stored (st : ThemeManager.state) :
  getItem_theme (page (toggleTheme css st))
  = Some (currentTheme (toggleTheme css st)).
Proof. unfold toggleTheme. rewrite applyTheme_stored. reflexivity. Qed.

Lemma getInitialTheme_valid (b : browser) : valid_theme (getInitialTheme b).
Proof.
  unfold getInitialTheme.
  destruct (getItem_theme b) as [saved|]; [| apply system_theme_valid].
  destruct (truthy (Some saved)); simpl; [| apply system_theme_valid].
  destruct (String.eqb_spec saved "light") as [->|_]; [left; reflexivity |].
  destruct (String.eqb_spec saved "dark") as [->|_]; [right; reflexivity |].
  apply system_theme_valid.
Qed.

Lemma init_currentTheme (st : ThemeManager.state) :
  currentTheme (init css st) = currentTheme st.
Proof. reflexivity. Qed.

Lemma init_stored (st : ThemeManager.state) :
  getItem_theme (page (init css st)) = Some (currentTheme st).
Proof.
  unfold init. cbn [page currentTheme].
  rewrite <- (applyTheme_stored (currentTheme st) st).
  unfold getItem_theme. reflexivity.
Qed.

Lemma transitionTimeout_theme (st : ThemeManager.state) :
  currentTheme (transitionTimeout st) = currentTheme st
  /\ getItem_theme (page (transitionTimeout st)) = getItem_theme (page st).
Proof.
  unfold transitionTimeout.
  destruct (pendingTimeouts (page st)); split; reflexivity.
Qed.

Lemma truthy_valid_theme (t : string) : valid_theme t -> truthy (Some t) = true.
Proof. intros [->| ->]; reflexivity. Qed.

Lemma constructor_invariant (b : browser) : theme_invariant (constructor css b).
Proof.
  unfold constructor. split.
  - rewrite init_currentTheme. apply getInitialTheme_valid.
  - rewrite init_stored, init_currentTheme. reflexivity.
Qed.

Lemma toggleTheme_invariant (st : ThemeManager.state) :
  theme_invariant (toggleTheme css st).
Proof.
  unfold toggleTheme. apply applyTheme_invariant.
  destruct (String.eqb (currentTheme st) "light"); [right | left]; reflexivity.
Qed.

Lemma setTheme_invariant (theme : value) (st : ThemeManager.state) :
  theme_invariant st -> theme_invariant (setTheme css theme st).
Proof.
  intros Hinv. unfold setTheme.
  destruct theme as [| | b | n | s | r]; try exact Hinv.
  simpl.
  destruct (String.eqb_spec s "light") as [->|_];
    [apply applyTheme_invariant; left; reflexivity |].
  destruct (String.eqb_spec s "dark") as [->|_];
    [apply applyTheme_invariant; right; reflexivity |].
  exact Hinv.
Qed.

Lemma handleSystemThemeChange_invariant (matches : bool) (st : ThemeManager.state) :
  theme_invariant st -> theme_invariant (handleSystemThemeChange css matches st).
Proof.
  intros Hinv. unfold handleSystemThemeChange.
  destruct (negb (truthy (getItem_theme (page st)))); [| exact Hinv].
  apply applyTheme_invariant, system_theme_valid.
Qed.

Lemma reachable_invariant (st : ThemeManager.state) :
  reachable css st -> theme_invariant st.
Proof.
  intros Hreach. induction Hreach as [b | op st _ IH].
  - apply constructor_invariant.
  - destruct op as [| v | matches |]; simpl.
    + apply toggleTheme_invariant.
    + apply setTheme_invariant, IH.
    + apply handleSystemThemeChange_invariant, IH.
    + destruct IH as [Hv Hs].
      destruct (transitionTimeout_theme st) as [Hc Hg].
      split; [rewrite Hc; exact Hv | rewrite Hg, Hc; exact Hs].
Qed.

End ThemeFacts.

(** ** Initial-theme resolution *)

(** C3. Whatever is stored under ['theme'], [getInitialTheme] returns the
    stored value verbatim exactly when it is ['light'] or ['dark']; for
    every other stored value, and for no stored value, it returns ['dark']
    when the dark-scheme media query matches and ['light'] otherwise; the
    result is always one of the two themes. *)
Theorem getInitialTheme_resolution (b : browser) (stored : option string) :
  getItem_theme b = stored ->
  (forall v, stored = Some v -> (getInitialTheme b = v <-> valid_theme v))
  /\ ((forall v, stored = Some v -> ~ valid_theme v) ->
      getInitialTheme b = if mediaQuery_matches b then "dark" else "light")
  /\ valid_theme (getInitialTheme b).
Proof.
  intros Hget. split; [| split].
  - intros v ->. split.
    + intros <-. apply getInitialTheme_valid.
    + intros Hv. unfold getInitialTheme. rewrite Hget.
      rewrite (truthy_valid_theme v Hv).
      destruct Hv as [-> | ->]; reflexivity.
  - intros Hother. unfold getInitialTheme. rewrite Hget.
    destruct stored as [v|]; [| reflexivity].
    specialize (Hother v eq_refl).
    destruct (String.eqb_spec v "light") as [->|_];
      [exfalso; apply Hother; left; reflexivity |].
    destruct (String.eqb_spec v "dark") as [->|_];
      [exfalso; apply Hother; right; reflexivity |].
    rewrite andb_false_r. reflexivity.
  - apply getInitialTheme_valid.
Qed.

Lemma getInitialTheme_resolution_witness :
  getInitialTheme (sample_browser {[ "theme" := "blue" ]} true) = "dark"
  /\ (getInitialTheme (sample_browser {[ "theme" := "light" ]} true) = "light"
      <-> valid_theme "light").
Proof.
  split.
  - apply (getInitialTheme_resolution
             (sample_browser {[ "theme" := "blue" ]} true) (Some "blue")).
    + reflexivity.
    + intros v Hv [Hl | Hd]; congruence.
  - apply (getInitialTheme_resolution
             (sample_browser {[ "theme" := "light" ]} true) (Some "light"));
      reflexivity.
Defined.

(** ** The public setter *)

(** C5. [setTheme] called with anything other than the strings ['light']
    and ['dark'] changes nothing: the whole state, hence the current theme
    and the stored value, stays as it was.  Called with ['light'] or
    ['dark'] it applies that theme, which becomes both the current theme
    and the stored value. *)
Theorem setTheme_validates (css : element -> string -> string)
    (theme : value) (st : ThemeManager.state) :
  ((theme <> VString "light" /\ theme <> VString "dark") ->
     setTheme css theme st = st)
  /\ (forall t, theme = VString t -> valid_theme t ->
        setTheme css theme st = applyTheme css t st
        /\ currentTheme (setTheme css theme st) = t
        /\ getItem_theme (page (setTheme css theme st)) = Some t).
Proof.
  split.
  - intros [Hl Hd]. unfold setTheme.
    destruct theme as [| | b | n | s | r]; try reflexivity.
    simpl.
    destruct (String.eqb_spec s "light") as [->|_]; [congruence |].
    destruct (String.eqb_spec s "dark") as [->|_]; [congruence |].
    reflexivity.
  - intros t -> Hv.
    assert (Heq : setTheme css (VString t) st = applyTheme css t st).
    { destruct Hv as [-> | ->]; reflexivity. }
    rewrite Heq. split; [reflexivity | split].
    + apply applyTheme_currentTheme.
    + apply applyTheme_stored.
Qed.

Lemma setTheme_validates_witness :
  setTheme no_stylesheet (VString "blue") (sample_state {[ "theme" := "dark" ]} "dark")
  = sample_state {[ "theme" := "dark" ]} "dark"
  /\ currentTheme
       (setTheme no_stylesheet (VString "light")
          (sample_state {[ "theme" := "dark" ]} "dark")) = "light".
Proof.
  split.
  - apply (setTheme_validates no_stylesheet (VString "blue")
             (sample_state {[ "theme" := "dark" ]} "dark")).
    split; discriminate.
  - apply (setTheme_validates no_stylesheet (VString "light")
             (sample_state {[ "theme" := "dark" ]} "dark") ).
    + reflexivity.
    + left; reflexivity.
Defined.

(** ** Operating-system preference changes *)

(** The guard of the handler, on any state whatever: if no value, or the
    empty string, is stored under ['theme'], the handler applies the theme
    of the operating system (['dark'] if the event's query matches, else
    ['light']), which becomes the current theme and the stored value; if a
    non-empty value is stored, the event is ignored and the state is left
    as it was. *)
Lemma handleSystemThemeChange_respects_stored
    (css : element -> string -> string) (matches : bool)
    (st : ThemeManager.state) (stored : option string) :
  getItem_theme (page st) = stored ->
  ((stored = None \/ stored = Some "") ->
     let st' := handleSystemThemeChange css matches st in
     st' = applyTheme css (if matches then "dark" else "light") st
     /\ currentTheme st' = (if matches then "dark" else "light")
     /\ getItem_theme (page st') = Some (if matches then "dark" else "light"))
  /\ (forall v, stored = Some v -> v <> "" ->
        handleSystemThemeChange css matches st = st).
Proof.
  intros Hget. split.
  - intros Hnone. cbv zeta.
    assert (Heq : handleSystemThemeChange css matches st
                  = applyTheme css (if matches then "dark" else "light") st).
    { unfold handleSystemThemeChange. rewrite Hget.
      destruct Hnone as [-> | ->]; reflexivity. }
    rewrite Heq. split; [reflexivity | split].
    + apply applyTheme_currentTheme.
    + apply applyTheme_stored.
  - intros v -> Hne. unfold handleSystemThemeChange. rewrite Hget. simpl.
    destruct (String.eqb_spec v "") as [-> | _]; [congruence | reflexivity].
Qed.

Lemma handleSystemThemeChange_respects_stored_witness :
  currentTheme (handleSystemThemeChange no_stylesheet true (sample_state ∅ "light"))
  = "dark"
  /\ handleSystemThemeChange no_stylesheet true
       (sample_state {[ "theme" := "light" ]} "light")
     = sample_state {[ "theme" := "light" ]} "light".
Proof.
  split.
  - apply (handleSystemThemeChange_respects_stored no_stylesheet true
             (sample_state ∅ "light") None).
    + reflexivity.
    + left; reflexivity.
  - refine (proj2 (handleSystemThemeChange_respects_stored no_stylesheet true
                     (sample_state {[ "theme" := "light" ]} "light")
                     (Some "light") _) "light" eq_refl _).
    + reflexivity.
    + discriminate.
Defined.

(** C1. The events are not honoured before an explicit preference is
    stored, as the claim and the comment in the handler ("only change if
    no manual preference is saved") have it.  On a first visit, with
    nothing stored under ['theme'], the constructor itself stores the theme
    it derived from the operating system, before it registers the handler;
    so, with no choice ever made by the user, the handler finds a stored
    value and ignores every change event: the state stays as it was and
    the current theme stays the one the operating system had at load
    time, also when the event reports the other scheme. *)
Theorem system_change_ignored_on_first_visit
    (css : element -> string -> string) (b : browser) (matches : bool) :
  getItem_theme b = None ->
  getItem_theme (page (constructor css b))
  = Some (if mediaQuery_matches b then "dark" else "light")
  /\ handleSystemThemeChange css matches (constructor css b) = constructor css b
  /\ currentTheme (handleSystemThemeChange css matches (constructor css b))
     = (if mediaQuery_matches b then "dark" else "light").
Proof.
  intros Hfresh.
  assert (Hinit : getInitialTheme b = if mediaQuery_matches b then "dark" else "light").
  { unfold getInitialTheme. rewrite Hfresh. reflexivity. }
  destruct (constructor_invariant css b) as [Hvalid Hstored].
  assert (Hcur : currentTheme (constructor css b)
                 = if mediaQuery_matches b then "dark" else "light").
  { unfold constructor. rewrite init_currentTheme. exact Hinit. }
  assert (Hignored : handleSystemThemeChange css matches (constructor css b)
                     = constructor css b).
  { unfold handleSystemThemeChange.
    rewrite Hstored, (truthy_valid_theme _ Hvalid). reflexivity. }
  split; [rewrite Hstored, Hcur; reflexivity |].
  split; [exact Hignored |]. rewrite Hignored. exact Hcur.
Qed.

Lemma system_change_ignored_on_first_visit_witness :
  handleSystemThemeChange no_stylesheet true
    (constructor no_stylesheet (sample_browser ∅ false))
  = constructor no_stylesheet (sample_browser ∅ false)
  /\ currentTheme
       (handleSystemThemeChange no_stylesheet true
          (constructor no_stylesheet (sample_browser ∅ false))) = "light".
Proof.
  split.
  - refine (proj1 (proj2 (system_change_ignored_on_first_visit no_stylesheet
                            (sample_browser ∅ false) true _))).
    reflexivity.
  - vm_compute. reflexivity.
Defined.

(** A stored value that is not a theme is still a stored value: with
    ['blue'] stored the event is ignored; with the empty string stored it
    is honoured. *)
Example handleSystemThemeChange_other_values :
  handleSystemThemeChange no_stylesheet true
    (sample_state {[ "theme" := "blue" ]} "light")
  = sample_state {[ "theme" := "blue" ]} "light"
  /\ currentTheme
       (handleSystemThemeChange no_stylesheet true
          (sample_state {[ "theme" := "" ]} "light")) = "dark".
Proof. split; reflexivity. Qed.

(** ** Toggling *)

(** C4, as stated, fails: from a state whose current theme is ['light']
    while nothing is stored, two toggles bring the current theme back but
    leave ['light'] in storage, where there was no value. *)
Lemma toggleTheme_twice_nothing_stored :
  let st := sample_state ∅ "light" in
  valid_theme (currentTheme st)
  /\ currentTheme (toggleTheme no_stylesheet (toggleTheme no_stylesheet st))
     = currentTheme st
  /\ getItem_theme (page st) = None
  /\ getItem_theme
       (page (toggleTheme no_stylesheet (toggleTheme no_stylesheet st)))
     = Some "light".
Proof.
  cbv zeta. split; [left; reflexivity |].
  split; [reflexivity |]. split; [reflexivity |].
  apply toggleTheme_stored.
Qed.

(** C4, amended. From every state whose current theme is ['light'] or
    ['dark'], two toggles bring the current theme back to its original
    value and leave exactly that theme in storage.  So both the current
    theme and the stored value are back to their original values whenever
    the stored value was the current theme, and in particular from every
    state reached from the constructor by the manager's operations. *)
Theorem toggleTheme_involution (css : element -> string -> string)
    (st : ThemeManager.state) :
  valid_theme (currentTheme st) ->
  let st2 := toggleTheme css (toggleTheme css st) in
  currentTheme st2 = currentTheme st
  /\ getItem_theme (page st2) = Some (currentTheme st)
  /\ (getItem_theme (page st) = Some (currentTheme st) ->
      getItem_theme (page st2) = getItem_theme (page st))
  /\ (reachable css st ->
      getItem_theme (page st2) = getItem_theme (page st)).
Proof.
  intros Hv. cbv zeta.
  assert (Hcur : currentTheme (toggleTheme css (toggleTheme css st))
                 = currentTheme st).
  { rewrite !toggleTheme_currentTheme.
    destruct Hv as [-> | ->]; reflexivity. }
  assert (Hsto : getItem_theme (page (toggleTheme css (toggleTheme css st)))
                 = Some (currentTheme st)).
  { rewrite toggleTheme_stored, Hcur. reflexivity. }
  split; [exact Hcur | split; [exact Hsto | split]].
  - intros Hsync. rewrite Hsto, Hsync. reflexivity.
  - intros Hreach. destruct (reachable_invariant css st Hreach) as [_ Hsync].
    rewrite Hsto, Hsync. reflexivity.
Qed.

Lemma toggleTheme_involution_witness :
  let st := sample_state {[ "theme" := "dark" ]} "dark" in
  currentTheme (toggleTheme no_stylesheet (toggleTheme no_stylesheet st)) = "dark"
  /\ getItem_theme
       (page (toggleTheme no_stylesheet (toggleTheme no_stylesheet st)))
     = getItem_theme (page st).
Proof.
  cbv zeta. split.
  - apply (toggleTheme_involution no_stylesheet
             (sample_state {[ "theme" := "dark" ]} "dark")).
    right; reflexivity.
  - refine (proj1 (proj2 (proj2 (toggleTheme_involution no_stylesheet
              (sample_state {[ "theme" := "dark" ]} "dark") _))) _).
    + right; reflexivity.
    + reflexivity.
Defined.

(** ** The invariant of the manager *)

(** C9. The constructor establishes, and every operation keeps, the
    invariant that the current theme is ['light'] or ['dark'] and that the
    value stored under ['theme'] is exactly the current theme: it holds
    after construction for every page (also when the theme came from the
    operating system's preference, since [applyTheme] always writes the
    storage), after [toggleTheme] and after [setTheme] with a valid
    argument from any state, after the preference-change handler from any
    state that satisfies it, and so in every state reached from the
    constructor by the manager's operations. *)
Theorem theme_invariant_kept (css : element -> string -> string) :
  (forall b, theme_invariant (constructor css b))
  /\ (forall st, theme_invariant (toggleTheme css st))
  /\ (forall st t, valid_theme t -> theme_invariant (setTheme css (VString t) st))
  /\ (forall st matches, theme_invariant st ->
        theme_invariant (handleSystemThemeChange css matches st))
  /\ (forall st, reachable css st -> theme_invariant st).
Proof.
  split; [apply constructor_invariant |].
  split; [apply toggleTheme_invariant |].
  split; [| split].
  - intros st t Hv.
    replace (setTheme css (VString t) st) with (applyTheme css t st)
      by (destruct Hv as [-> | ->]; reflexivity).
    apply applyTheme_invariant, Hv.
  - intros st matches. apply handleSystemThemeChange_invariant.
  - apply reachable_invariant.
Qed.

Lemma theme_invariant_kept_witness :
  theme_invariant
    (run_operation no_stylesheet (OpSystemThemeChange false)
       (run_operation no_stylesheet OpToggleTheme
          (constructor no_stylesheet (sample_browser ∅ true)))).
Proof.
  apply (theme_invariant_kept no_stylesheet).
  apply (reachable_operation no_stylesheet (OpSystemThemeChange false)).
  apply (reachable_operation no_stylesheet OpToggleTheme).
  apply reachable_constructor.
Defined.

(* ===================================================================== *)
(** * Properties of the colour conversion                                 *)
(* ===================================================================== *)

Lemma in_all_ascii (a : ascii) : In a all_ascii.
Proof.
  unfold all_ascii. rewrite <- (ascii_nat_embedding a).
  apply in_map, in_seq. pose proof (nat_ascii_bounded a). lia.
Qed.

Lemma parse_pair_ok_all :
  forallb (fun hi => forallb (parse_pair_ok hi) all_ascii) all_ascii = true.
Proof. vm_compute. reflexivity. Qed.

Lemma parseInt16_component (hi lo : ascii) (v : Z) :
  component hi lo = Some v ->
  parseInt16 (String hi (String lo EmptyString)) = Int v.
Proof.
  intros Hc.
  pose proof parse_pair_ok_all as Hall.
  rewrite forallb_forall in Hall. specialize (Hall hi (in_all_ascii hi)).
  rewrite forallb_forall in Hall. specialize (Hall lo (in_all_ascii lo)).
  unfold parse_pair_ok in Hall. rewrite Hc in Hall.
  destruct (parseInt16 (String hi (String lo EmptyString))) as [| z];
    [discriminate |].
  apply Z.eqb_eq in Hall. congruence.
Qed.

Lemma hex_digit_not_hash (c : ascii) (v : Z) :
  hex_digit c = Some v -> Ascii.eqb c "#" = false.
Proof.
  intros Hd. destruct (Ascii.eqb_spec c "#") as [-> |]; [| reflexivity].
  vm_compute in Hd. discriminate Hd.
Qed.

Lemma component_digits (hi lo : ascii) (v : Z) :
  component hi lo = Some v ->
  exists h l, hex_digit hi = Some h /\ hex_digit lo = Some l.
Proof.
  unfold component. destruct (hex_digit hi) as [h|]; [| discriminate].
  destruct (hex_digit lo) as [l|]; [| discriminate]. eauto.
Qed.

Lemma strip_leading_hash_cons (c : ascii) (rest : string) :
  strip_leading_hash (String c rest)
  = if Ascii.eqb c "#" then rest else String c rest.
Proof. destruct c as [[] [] [] [] [] [] [] []]; reflexivity. Qed.

Lemma replace_first_hash_cons (c : ascii) (rest : string) :
  replace_first_with_empty "#" (String c rest)
  = if Ascii.eqb c "#" then rest
    else String c (replace_first_with_empty "#" rest).
Proof. reflexivity. Qed.

Lemma hexToRgb_six (r1 r2 g1 g2 b1 b2 : ascii) (vr vg vb : Z) :
  component r1 r2 = Some vr ->
  component g1 g2 = Some vg ->
  component b1 b2 = Some vb ->
  let six :=
    String r1 (String r2 (String g1 (String g2 (String b1 (String b2 ""))))) in
  hexToRgb six = Some (triplet vr vg vb)
  /\ hexToRgb (String "#" six) = Some (triplet vr vg vb).
Proof.
  intros Hr Hg Hb six.
  destruct (component_digits _ _ _ Hr) as (? & ? & Hr1 & Hr2).
  destruct (component_digits _ _ _ Hg) as (? & ? & Hg1 & Hg2).
  destruct (component_digits _ _ _ Hb) as (? & ? & Hb1 & Hb2).
  assert (Hbody : replace_first_with_empty "#" six = six).
  { unfold six. rewrite !replace_first_hash_cons.
    rewrite (hex_digit_not_hash _ _ Hr1), (hex_digit_not_hash _ _ Hr2),
      (hex_digit_not_hash _ _ Hg1), (hex_digit_not_hash _ _ Hg2),
      (hex_digit_not_hash _ _ Hb1), (hex_digit_not_hash _ _ Hb2).
    reflexivity. }
  assert (Hconv : hexToRgb six = Some (triplet vr vg vb)).
  { unfold hexToRgb. rewrite Hbody. unfold six.
    cbn [String.length Nat.eqb negb substr substring].
    rewrite (parseInt16_component _ _ _ Hr), (parseInt16_component _ _ _ Hg),
      (parseInt16_component _ _ _ Hb).
    reflexivity. }
  split; [exact Hconv |].
  rewrite <- Hconv. unfold hexToRgb.
  rewrite (replace_first_hash_cons "#" six). cbn [Ascii.eqb Bool.eqb].
  rewrite Hbody. reflexivity.
Qed.

Lemma hexToRgb_three (r g b : ascii) (vr vg vb : Z) :
  component r r = Some vr ->
  component g g = Some vg ->
  component b b = Some vb ->
  let three := String r (String g (String b "")) in
  hexToRgb three = Some (triplet vr vg vb)
  /\ hexToRgb (String "#" three) = Some (triplet vr vg vb).
Proof.
  intros Hr Hg Hb three.
  destruct (component_digits _ _ _ Hr) as (? & ? & Hr1 & _).
  destruct (component_digits _ _ _ Hg) as (? & ? & Hg1 & _).
  destruct (component_digits _ _ _ Hb) as (? & ? & Hb1 & _).
  assert (Hbody : replace_first_with_empty "#" three = three).
  { unfold three. rewrite !replace_first_hash_cons.
    rewrite (hex_digit_not_hash _ _ Hr1), (hex_digit_not_hash _ _ Hg1),
      (hex_digit_not_hash _ _ Hb1).
    reflexivity. }
  assert (Hconv : hexToRgb three = Some (triplet vr vg vb)).
  { unfold hexToRgb. rewrite Hbody. unfold three.
    cbn [String.length Nat.eqb negb double_chars substr substring].
    rewrite (parseInt16_component _ _ _ Hr), (parseInt16_component _ _ _ Hg),
      (parseInt16_component _ _ _ Hb).
    reflexivity. }
  split; [exact Hconv |].
  rewrite <- Hconv. unfold hexToRgb.
  rewrite (replace_first_hash_cons "#" three). cbn [Ascii.eqb Bool.eqb].
  rewrite Hbody. reflexivity.
Qed.

(** C6. [hexToRgb] maps every string of three or six hexadecimal digits,
    with or without a leading ['#'], to the comma-separated decimal
    triplet of its colour components (three digits being doubled first):
    whenever the specification's conversion [rgb_of_hex] yields a triplet,
    [hexToRgb] returns that triplet.  In particular ['#abc'] gives
    ['170, 187, 204'], ['336699'] gives ['51, 102, 153'], and ['#12']
    gives [null], so that [updateRgbVariables] writes no variable for
    it. *)
Theorem hexToRgb_converts (hex rgb : string) :
  rgb_of_hex hex = Some rgb ->
  hexToRgb hex = Some rgb
  /\ hexToRgb "#abc" = Some "170, 187, 204"
  /\ hexToRgb "336699" = Some "51, 102, 153"
  /\ hexToRgb "#12" = None
  /\ rgb_writes (stylesheet_with "primary" "#12") empty_element = [].
Proof.
  intros Hspec.
  split; [| repeat split; vm_compute; reflexivity].
  unfold rgb_of_hex in Hspec.
  destruct hex as [| c0 rest]; [discriminate Hspec |].
  rewrite strip_leading_hash_cons in Hspec.
  destruct (Ascii.eqb_spec c0 "#") as [-> | Hne].
  - destruct rest as [| c1 [| c2 [| c3 [| c4 [| c5 [| c6 [| c7 rest]]]]]]];
      cbn [list_ascii_of_string] in Hspec; try discriminate Hspec.
    + destruct (component c1 c1) as [vr|] eqn:Hr; [| discriminate Hspec].
      destruct (component c2 c2) as [vg|] eqn:Hg; [| discriminate Hspec].
      destruct (component c3 c3) as [vb|] eqn:Hb; [| discriminate Hspec].
      injection Hspec as <-.
      apply (hexToRgb_three c1 c2 c3 vr vg vb Hr Hg Hb).
    + destruct (component c1 c2) as [vr|] eqn:Hr; [| discriminate Hspec].
      destruct (component c3 c4) as [vg|] eqn:Hg; [| discriminate Hspec].
      destruct (component c5 c6) as [vb|] eqn:Hb; [| discriminate Hspec].
      injection Hspec as <-.
      apply (hexToRgb_six c1 c2 c3 c4 c5 c6 vr vg vb Hr Hg Hb).
  - destruct rest as [| c1 [| c2 [| c3 [| c4 [| c5 [| c6 rest]]]]]];
      cbn [list_ascii_of_string] in Hspec; try discriminate Hspec.
    + destruct (component c0 c0) as [vr|] eqn:Hr; [| discriminate Hspec].
      destruct (component c1 c1) as [vg|] eqn:Hg; [| discriminate Hspec].
      destruct (component c2 c2) as [vb|] eqn:Hb; [| discriminate Hspec].
      injection Hspec as <-.
      apply (hexToRgb_three c0 c1 c2 vr vg vb Hr Hg Hb).
    + destruct (component c0 c1) as [vr|] eqn:Hr; [| discriminate Hspec].
      destruct (component c2 c3) as [vg|] eqn:Hg; [| discriminate Hspec].
      destruct (component c4 c5) as [vb|] eqn:Hb; [| discriminate Hspec].
      injection Hspec as <-.
      apply (hexToRgb_six c0 c1 c2 c3 c4 c5 vr vg vb Hr Hg Hb).
Qed.

Lemma hexToRgb_converts_witness :
  hexToRgb "#1E90ff" = Some "30, 144, 255".
Proof.
  apply (hexToRgb_converts "#1E90ff" "30, 144, 255").
  vm_compute. reflexivity.
Defined.

(** ** Which variables [updateRgbVariables] writes *)

Lemma hexToRgb_null_iff (hex : string) :
  hexToRgb hex = None <-> String.length (normalized hex) <> 6%nat.
Proof.
  unfold hexToRgb, normalized.
  set (hex2 := if (String.length (replace_first_with_empty "#" hex) =? 3)%nat
               then double_chars (replace_first_with_empty "#" hex)
               else replace_first_with_empty "#" hex).
  destruct (Nat.eqb_spec (String.length hex2) 6) as [Heq | Hne]; simpl.
  - split; [discriminate | intros Hn; contradiction].
  - split; [intros _; exact Hne | reflexivity].
Qed.

Lemma updateRgbVariable_writes (entries : list (string * string)) (root : element) :
  fold_left updateRgbVariable entries root
  = fold_left apply_write
      (flat_map
         (fun entry : string * string =>
            match hexToRgb (snd entry) with
            | Some v =>
                if truthy (Some v) then [(rgb_variable (fst entry), v)] else []
            | None => []
            end) entries)
      root.
Proof.
  revert root. induction entries as [| [name hex] entries IH]; intros root.
  - reflexivity.
  - cbn [fold_left flat_map]. rewrite fold_left_app, IH.
    f_equal. unfold updateRgbVariable. cbn [fst snd].
    destruct (hexToRgb hex) as [v|]; [| reflexivity].
    destruct (truthy (Some v)); reflexivity.
Qed.

Lemma updateRgbVariables_writes (css : element -> string -> string) (root : element) :
  updateRgbVariables css root = fold_left apply_write (rgb_writes css root) root.
Proof. apply updateRgbVariable_writes. Qed.

Lemma apply_writes_other (k : string) (writes : list (string * string)) (el : element) :
  ~ In k (map fst writes) ->
  style (fold_left apply_write writes el) !! k = style el !! k.
Proof.
  revert el. induction writes as [| [k' v] writes IH]; intros el Hnot.
  - reflexivity.
  - cbn [fold_left]. rewrite IH.
    + unfold apply_write, setProperty. cbn [fst snd style].
      assert (Hne : k' <> k) by (intros ->; apply Hnot; left; reflexivity).
      destruct (String.eqb v "").
      * apply lookup_delete_ne, Hne.
      * apply lookup_insert_ne, Hne.
    + intros Hin. apply Hnot. right. exact Hin.
Qed.

Lemma rgb_variable_inj (n m : string) :
  In n color_names -> In m color_names -> rgb_variable n = rgb_variable m -> n = m.
Proof.
  unfold color_names. cbn [In]. intros Hn Hm.
  repeat (destruct Hn as [<- | Hn]); try contradiction;
    repeat (destruct Hm as [<- | Hm]); try contradiction;
    intros Heq; try reflexivity; discriminate Heq.
Qed.

Lemma rgb_writes_from (css : element -> string -> string) (root : element)
    (k v : string) :
  In (k, v) (rgb_writes css root) ->
  exists n, In n color_names /\ k = rgb_variable n
            /\ hexToRgb (trim (css root ("--color-" ++ n))) = Some v.
Proof.
  unfold rgb_writes, colors. intros Hin.
  apply in_flat_map in Hin. destruct Hin as ([n hex] & Hentry & Hin).
  apply in_map_iff in Hentry. destruct Hentry as (n' & Heq & Hn').
  injection Heq as <- <-. cbn [fst snd] in Hin.
  destruct (hexToRgb (trim (css root ("--color-" ++ n')))) as [v'|] eqn:Hconv;
    [| contradiction].
  destruct (truthy (Some v')); [| contradiction].
  destruct Hin as [Heq | []]. injection Heq as <- <-.
  exists n'. split; [exact Hn' | split; [reflexivity | exact Hconv]].
Qed.

(** C2, as stated, fails: ['gggggg'] is malformed (it is not made of
    hexadecimal digits), yet [hexToRgb] converts it, and
    [updateRgbVariables] writes the result into the colour's ['-rgb']
    variable. *)
Lemma malformed_hex_written :
  malformed_hex "gggggg"
  /\ hexToRgb "gggggg" = Some "NaN, NaN, NaN"
  /\ rgb_writes (stylesheet_with "primary" "gggggg") empty_element
     = [("--color-primary-rgb", "NaN, NaN, NaN")]
  /\ style (updateRgbVariables (stylesheet_with "primary" "gggggg") empty_element)
       !! "--color-primary-rgb" = Some "NaN, NaN, NaN".
Proof. repeat split; vm_compute; reflexivity. Qed.

(** The ['#'] that [hexToRgb] removes need not lead the string. *)
Example hexToRgb_inner_hash :
  malformed_hex "12345#6" /\ hexToRgb "12345#6" = Some "18, 52, 86".
Proof. split; vm_compute; reflexivity. Qed.

(** C2, amended. For each of the six colours: when the computed value,
    trimmed, with its first ['#'] removed and its characters doubled if
    three remain, is not exactly six characters long, [hexToRgb] returns
    [null] and [updateRgbVariables] performs no write of that colour's
    ['-rgb'] variable, whose inline value stays as it was. *)
Theorem updateRgbVariables_skips_wrong_length
    (css : element -> string -> string) (root : element) (name : string) :
  In name color_names ->
  String.length (normalized (trim (css root ("--color-" ++ name)))) <> 6%nat ->
  hexToRgb (trim (css root ("--color-" ++ name))) = None
  /\ ~ In (rgb_variable name) (map fst (rgb_writes css root))
  /\ style (updateRgbVariables css root) !! rgb_variable name
     = style root !! rgb_variable name.
Proof.
  intros Hname Hlen.
  assert (Hnull : hexToRgb (trim (css root ("--color-" ++ name))) = None)
    by (apply hexToRgb_null_iff, Hlen).
  assert (Hnot : ~ In (rgb_variable name) (map fst (rgb_writes css root))).
  { intros Hin. apply in_map_iff in Hin. destruct Hin as ([k v] & Hk & Hin).
    cbn [fst] in Hk. subst k.
    apply rgb_writes_from in Hin. destruct Hin as (n & Hn & Heq & Hconv).
    apply (rgb_variable_inj name n Hname Hn) in Heq. subst n. congruence. }
  split; [exact Hnull | split; [exact Hnot |]].
  rewrite updateRgbVariables_writes. apply apply_writes_other, Hnot.
Qed.

Lemma updateRgbVariables_skips_wrong_length_witness :
  style (updateRgbVariables (stylesheet_with "accent" "  #12345 ") empty_element)
    !! rgb_variable "accent"
  = style empty_element !! rgb_variable "accent".
Proof.
  apply (updateRgbVariables_skips_wrong_length
           (stylesheet_with "accent" "  #12345 ") empty_element "accent").
  - vm_compute. tauto.
  - vm_compute. lia.
Defined.

(* ===================================================================== *)
(** * Properties of the scroll listener                                   *)
(* ===================================================================== *)

Import AnimationManager.

(** ** Arithmetic of the progress computation *)

Lemma num_sub_diag (x : number) :
  is_finite x = true -> num_sub x x = S754_zero false.
Proof.
  destruct x as [s | s | | s m e]; try discriminate; intros _.
  - destruct s; reflexivity.
  - unfold num_sub, SFsub. rewrite Z.min_id.
    unfold shl_align. rewrite !Z.sub_diag. reflexivity.
Qed.

Lemma num_div_zero_zero (s1 s2 : bool) :
  num_div (S754_zero s1) (S754_zero s2) = S754_nan.
Proof. reflexivity. Qed.

Lemma new_location_zero (steps : Z) : new_location steps 0 = loc_Exact.
Proof. unfold new_location. destruct (Z.even steps); reflexivity. Qed.

Lemma num_div_diag (s : bool) (m : positive) (e : Z) :
  num_div (S754_finite s m e) (S754_finite s m e) = Number_of_Z 1.
Proof.
  unfold num_div, SFdiv, SFdiv_core_binary.
  cbn [Zdigits2]. rewrite !Z.sub_diag.
  change (Z.min (fexp prec emax 0) 0) with (-53)%Z.
  change (0 - -53)%Z with 53%Z. cbv iota beta.
  assert (Hq : Z.div_eucl (Z.shiftl (Z.pos m) 53) (Z.pos m) = ((2 ^ 53)%Z, 0%Z)).
  { rewrite Z.shiftl_mul_pow2 by lia. rewrite Z.mul_comm.
    pose proof (Z.div_mul (2 ^ 53) (Z.pos m) ltac:(lia)) as Hd.
    pose proof (Z.mod_mul (2 ^ 53) (Z.pos m) ltac:(lia)) as Hm.
    unfold Z.div, Z.modulo in Hd, Hm.
    destruct (Z.div_eucl (2 ^ 53 * Z.pos m) (Z.pos m)) as [q r].
    congruence. }
  rewrite Hq, new_location_zero, xorb_nilpotent.
  vm_compute. reflexivity.
Qed.

Lemma Math_min_never_above (p : number) :
  SFltb num_100 (Math_min [p; num_100]) = false.
Proof.
  unfold Math_min, Math_min_from.
  destruct p as [s | s | | s m e].
  - destruct s; reflexivity.
  - destruct s; reflexivity.
  - reflexivity.
  - change (SFltb (S754_finite s m e) (S754_infinity false)) with true.
    cbv iota beta.
    destruct (SFltb num_100 (S754_finite s m e)) eqn:Hlt.
    + reflexivity.
    + exact Hlt.
Qed.

Lemma onScroll_width (bar : node) (v : viewport) (st : AnimationManager.state) :
  width (onScroll (Some bar) v st) !! bar
  = Some (Template "" (clampedProgress v) "%").
Proof.
  unfold onScroll.
  set (st1 := {| parentChildren := parentChildren st; observed := observed st;
                 classLists := classLists st; animationDelay := animationDelay st;
                 transform := transform st;
                 width := <[ bar := Template "" (clampedProgress v) "%" ]> (width st) |}).
  assert (Hfold : forall items acc,
             width (fold_left
                      (fun acc item =>
                         set_transform item
                           (Template "translate3d(0, "
                              (num_mul (pageYOffset v) num_neg_0_2) "px, 0)") acc)
                      items acc) = width acc).
  { induction items as [| item items IH]; intros acc; [reflexivity |].
    cbn [fold_left]. rewrite IH. reflexivity. }
  rewrite Hfold. unfold st1. cbn [width]. apply lookup_insert_eq.
Qed.

(** ** Scroll progress *)

(** C7, as stated, fails: in a document exactly as high as the window,
    the progress computed at offset 0 is [NaN], not 0, and the width
    assigned to the bar is ['NaN%']. *)
Lemma scroll_progress_top_not_zero :
  let v := sample_viewport 0 800 800 in
  pageYOffset v = S754_zero false
  /\ clampedProgress v = S754_nan
  /\ SFeqb (clampedProgress v) (S754_zero false) = false
  /\ text_to_string (Template "" (clampedProgress v) "%") = Some "NaN%".
Proof. repeat split; vm_compute; reflexivity. Qed.

(** C7, amended. On every scroll event the Number printed into the bar's
    width is (offset / (scrollable height - viewport height)) * 100
    clamped by [Math.min] to 100, and it never exceeds 100.  Whenever the
    scrollable height minus the viewport height is a non-zero finite
    number, it is 0 at offset 0 and it is 100 at an offset equal to that
    difference. *)
Theorem scroll_progress_clamped (v : viewport) :
  clampedProgress v
  = Math_min
      [num_mul
         (num_div (pageYOffset v) (num_sub (scrollHeight v) (innerHeight v)))
         (Number_of_Z 100);
       Number_of_Z 100]
  /\ SFltb (Number_of_Z 100) (clampedProgress v) = false
  /\ (forall s m e, maxScroll v = S754_finite s m e ->
        (forall s0, pageYOffset v = S754_zero s0 ->
           clampedProgress v = S754_zero (xorb s0 s)
           /\ text_to_string (Template "" (clampedProgress v) "%") = Some "0%")
        /\ (pageYOffset v = maxScroll v ->
            clampedProgress v = Number_of_Z 100
            /\ text_to_string (Template "" (clampedProgress v) "%") = Some "100%")).
Proof.
  split; [reflexivity |]. split; [apply Math_min_never_above |].
  intros s m e Hmax. split.
  - intros s0 Hoff.
    assert (Hzero : clampedProgress v = S754_zero (xorb s0 s)).
    { unfold clampedProgress, scrollProgress. rewrite Hoff, Hmax.
      destruct s0, s; reflexivity. }
    rewrite Hzero. split; reflexivity.
  - intros Hoff.
    assert (Hfull : clampedProgress v = Number_of_Z 100).
    { unfold clampedProgress, scrollProgress. rewrite Hoff, Hmax.
      rewrite num_div_diag. vm_compute. reflexivity. }
    rewrite Hfull. split; vm_compute; reflexivity.
Qed.

Lemma scroll_progress_clamped_witness :
  clampedProgress (sample_viewport 1200 2000 800) = Number_of_Z 100
  /\ clampedProgress (sample_viewport 0 2000 800) = S754_zero false.
Proof.
  split.
  - refine (proj1 (proj2 (proj2 (proj2 (scroll_progress_clamped
              (sample_viewport 1200 2000 800)))
              false 5277655813324800%positive (-42)%Z _) _)).
    + vm_compute. reflexivity.
    + vm_compute. reflexivity.
  - refine (proj1 (proj1 (proj2 (proj2 (scroll_progress_clamped
              (sample_viewport 0 2000 800)))
              false 5277655813324800%positive (-42)%Z _) false _)).
    + vm_compute. reflexivity.
    + vm_compute. reflexivity.
Defined.

(** Beyond the end of the range the clamp applies: a sample. *)
Example scroll_progress_beyond_range :
  scrollProgress (sample_viewport 1500 2000 800) = Number_of_Z 125
  /\ clampedProgress (sample_viewport 1500 2000 800) = Number_of_Z 100.
Proof. split; vm_compute; reflexivity. Qed.

(** C10. The division of the scroll listener is unguarded: when the
    document's scrollable height equals the viewport height, the
    denominator is zero, the progress computed at offset 0 is 0/0, that
    is [NaN], [Math.min] leaves it [NaN], and the width assigned to the
    progress bar is the string ['NaN%'], neither ['0%'] nor ['100%']. *)
Theorem scroll_progress_unguarded (h : number) (s0 : bool) (bar : node)
    (items : list node) (st : AnimationManager.state) :
  is_finite h = true ->
  let v := {| pageYOffset := S754_zero s0; scrollHeight := h;
              innerHeight := h; parallaxItems := items |} in
  maxScroll v = S754_zero false
  /\ scrollProgress v = S754_nan
  /\ clampedProgress v = S754_nan
  /\ width (onScroll (Some bar) v st) !! bar = Some (Template "" S754_nan "%")
  /\ text_to_string (Template "" S754_nan "%") = Some "NaN%".
Proof.
  intros Hfin v.
  assert (Hmax : maxScroll v = S754_zero false)
    by (unfold maxScroll, v; cbn [scrollHeight innerHeight];
        apply num_sub_diag, Hfin).
  assert (Hprog : scrollProgress v = S754_nan)
    by (unfold scrollProgress; rewrite Hmax; reflexivity).
  assert (Hclamp : clampedProgress v = S754_nan)
    by (unfold clampedProgress; rewrite Hprog; reflexivity).
  split; [exact Hmax | split; [exact Hprog | split; [exact Hclamp |]]].
  split; [| reflexivity].
  rewrite onScroll_width, Hclamp. reflexivity.
Qed.

Lemma scroll_progress_unguarded_witness :
  width
    (onScroll (Some 7%nat)
       {| pageYOffset := S754_zero false; scrollHeight := Number_of_Z 800;
          innerHeight := Number_of_Z 800; parallaxItems := [] |}
       empty_document) !! 7%nat
  = Some (Template "" S754_nan "%").
Proof.
  apply (scroll_progress_unguarded (Number_of_Z 800) false 7%nat [] empty_document).
  reflexivity.
Defined.

(* ===================================================================== *)
(** * Properties of the intersection observer                             *)
(* ===================================================================== *)

Lemma setupScrollAnimations_observed (supported : bool) (items : list node)
    (st : AnimationManager.state) (x : node) :
  x ∈ observed (setupScrollAnimations supported items st)
  <-> supported = true /\ In x items.
Proof.
  unfold setupScrollAnimations. cbn [observed]. destruct supported.
  - rewrite elem_of_list_to_set, list_elem_of_In. tauto.
  - split; [intros Hx; apply elem_of_empty in Hx; destruct Hx
           | intros [Hf _]; discriminate Hf].
Qed.

Lemma indexOf_from_spec (x : node) (l : list node) (i : Z) :
  In x l ->
  (i <= indexOf_from i x l)%Z
  /\ l !! Z.to_nat (indexOf_from i x l - i) = Some x.
Proof.
  revert i. induction l as [| y l IH]; intros i Hin; [destruct Hin |].
  cbn [indexOf_from]. destruct (Nat.eqb_spec y x) as [-> | Hne].
  - split; [lia |]. rewrite Z.sub_diag. reflexivity.
  - destruct Hin as [Heq | Hin]; [contradiction |].
    destruct (IH (i + 1)%Z Hin) as [Hle Hlook]. split; [lia |].
    replace (indexOf_from (i + 1) x l - i)%Z
      with (Z.succ (indexOf_from (i + 1) x l - (i + 1)))%Z by lia.
    rewrite Z2Nat.inj_succ by lia. exact Hlook.
Qed.

Lemma indexOf_spec (x : node) (l : list node) :
  In x l ->
  (0 <= indexOf x l)%Z /\ l !! Z.to_nat (indexOf x l) = Some x.
Proof.
  intros Hin. destruct (indexOf_from_spec x l 0 Hin) as [Hle Hlook].
  unfold indexOf. rewrite Z.sub_0_r in Hlook. split; assumption.
Qed.

Lemma on_entry_parentChildren (e : entry) (st : AnimationManager.state) :
  parentChildren (final_state (on_entry e st)) = parentChildren st.
Proof.
  unfold on_entry. destruct (isIntersecting e); [| reflexivity].
  destruct (parentChildren st !! target e); reflexivity.
Qed.

Lemma on_entry_observed (e : entry) (st : AnimationManager.state) :
  observed (final_state (on_entry e st)) ⊆ observed st.
Proof.
  unfold on_entry. destruct (isIntersecting e); [| reflexivity].
  destruct (parentChildren st !! target e); cbn [final_state observed];
    [| reflexivity].
  intros x Hx. apply elem_of_difference in Hx. tauto.
Qed.

Lemma callback_parentChildren (entries : list entry) (st : AnimationManager.state) :
  parentChildren (final_state (callback entries st)) = parentChildren st.
Proof.
  revert st. induction entries as [| e rest IH]; intros st; [reflexivity |].
  cbn [callback]. pose proof (on_entry_parentChildren e st) as He.
  destruct (on_entry e st) as [st' | st']; cbn [final_state] in *.
  - rewrite IH. exact He.
  - exact He.
Qed.

Lemma callback_observed (entries : list entry) (st : AnimationManager.state) :
  observed (final_state (callback entries st)) ⊆ observed st.
Proof.
  revert st. induction entries as [| e rest IH]; intros st; [reflexivity |].
  cbn [callback]. pose proof (on_entry_observed e st) as He.
  destruct (on_entry e st) as [st' | st']; cbn [final_state] in *.
  - etransitivity; [apply IH | exact He].
  - exact He.
Qed.

Lemma just_unobserved (t : node) (targets : gset node) : t ∉ targets ∖ {[ t ]}.
Proof.
  intros Hx. apply elem_of_difference in Hx. destruct Hx as [_ Hx].
  apply Hx, elem_of_singleton. reflexivity.
Qed.

Lemma just_unobserved_class (classes : option (gset string)) :
  "animate-in" ∈ default ∅ (Some ({[ "animate-in" ]} ∪ default ∅ classes)).
Proof.
  change ("animate-in" ∈ ({[ "animate-in" ]} : gset string) ∪ default ∅ classes).
  apply elem_of_union_l, elem_of_singleton. reflexivity.
Qed.

Lemma on_entry_animates (e : entry) (st : AnimationManager.state) :
  isIntersecting e = true ->
  is_Some (parentChildren st !! target e) ->
  exists st', on_entry e st = Returned st'
              /\ animated (parentChildren st) st' (target e).
Proof.
  intros Hint [siblings Hsib]. unfold on_entry. rewrite Hint, Hsib.
  eexists. split; [reflexivity |].
  exists siblings. cbn [animationDelay classLists observed].
  split; [exact Hsib |]. split; [apply lookup_insert_eq |].
  split; [rewrite lookup_insert_eq; apply just_unobserved_class
         | apply just_unobserved].
Qed.

Lemma on_entry_keeps_animated (e : entry) (st : AnimationManager.state) (t : node) :
  animated (parentChildren st) st t ->
  animated (parentChildren st) (final_state (on_entry e st)) t.
Proof.
  intros (siblings & Hsib & Hdelay & Hclass & Hobs).
  unfold on_entry. destruct (isIntersecting e); [| exists siblings; auto].
  destruct (parentChildren st !! target e) as [siblings'|] eqn:Hsib';
    [| exists siblings; auto].
  cbn [final_state]. exists siblings.
  cbn [animationDelay classLists observed].
  destruct (Nat.eq_dec (target e) t) as [Heq | Hne].
  - rewrite Heq in *. rewrite Hsib in Hsib'. injection Hsib' as <-.
    split; [exact Hsib |]. split; [apply lookup_insert_eq |].
    split; [rewrite lookup_insert_eq; apply just_unobserved_class
           | apply just_unobserved].
  - split; [exact Hsib |].
    split; [rewrite lookup_insert_ne by exact Hne; exact Hdelay |].
    split; [rewrite lookup_insert_ne by exact Hne; exact Hclass |].
    intros Hx. apply elem_of_difference in Hx. tauto.
Qed.

Lemma callback_keeps_animated (entries : list entry) (st : AnimationManager.state)
    (t : node) :
  animated (parentChildren st) st t ->
  animated (parentChildren st) (final_state (callback entries st)) t.
Proof.
  revert st. induction entries as [| e rest IH]; intros st Ht; [exact Ht |].
  cbn [callback].
  pose proof (on_entry_keeps_animated e st t Ht) as Hkeep.
  pose proof (on_entry_parentChildren e st) as Hdom.
  destruct (on_entry e st) as [st' | st']; cbn [final_state] in *.
  - rewrite <- Hdom. apply IH. rewrite Hdom. exact Hkeep.
  - exact Hkeep.
Qed.

Lemma callback_animates (entries : list entry) (st : AnimationManager.state) :
  (forall e, In e entries -> isIntersecting e = true ->
             is_Some (parentChildren st !! target e)) ->
  exists st1, callback entries st = Returned st1
              /\ forall e, In e entries -> isIntersecting e = true ->
                           animated (parentChildren st) st1 (target e).
Proof.
  revert st. induction entries as [| e rest IH]; intros st Hconn.
  - exists st. split; [reflexivity | intros e []].
  - cbn [callback].
    assert (Hstep : exists st', on_entry e st = Returned st'
                                /\ parentChildren st' = parentChildren st
                                /\ (isIntersecting e = true ->
                                    animated (parentChildren st) st' (target e))).
    { destruct (isIntersecting e) eqn:Hint.
      - destruct (on_entry_animates e st Hint) as (st' & Hrun & Han).
        { apply Hconn; [left; reflexivity | exact Hint]. }
        exists st'. split; [exact Hrun |]. split; [| intros _; exact Han].
        pose proof (on_entry_parentChildren e st) as Hdom.
        rewrite Hrun in Hdom. exact Hdom.
      - exists st. unfold on_entry. rewrite Hint.
        split; [reflexivity |]. split; [reflexivity | discriminate]. }
    destruct Hstep as (st' & Hrun & Hdom & Han). rewrite Hrun.
    destruct (IH st') as (st1 & Hrest & Hall).
    { intros e' Hin Hint. rewrite Hdom. apply Hconn; [right; exact Hin | exact Hint]. }
    exists st1. split; [exact Hrest |].
    intros e' [<- | Hin] Hint.
    + specialize (Han Hint). rewrite <- Hdom in Han.
      pose proof (callback_keeps_animated rest st' (target e) Han) as Hkeep.
      rewrite Hrest in Hkeep. cbn [final_state] in Hkeep.
      rewrite Hdom in Hkeep. exact Hkeep.
    + rewrite <- Hdom. apply Hall; assumption.
Qed.

Lemma observer_run_never_again (st : AnimationManager.state)
    (ds : list (list entry)) (st_end : AnimationManager.state) (t : node) :
  observer_run st ds st_end ->
  t ∉ observed st ->
  (t ∉ observed st_end)
  /\ forall d, In d ds -> forall e, In e d -> target e <> t.
Proof.
  intros Hrun. induction Hrun as [st | st entries next ds st' Hdel Hnext Hrun IH];
    intros Hnot.
  - split; [exact Hnot | intros d []].
  - assert (Hnot' : t ∉ observed next).
    { rewrite Hnext. intros Hin. apply Hnot.
      apply (callback_observed entries st). exact Hin. }
    destruct (IH Hnot') as [Hend Hlater]. split; [exact Hend |].
    intros d [<- | Hin] e He.
    + intros Heq. apply Hnot. rewrite <- Heq.
      unfold deliverable in Hdel. rewrite Forall_forall in Hdel.
      apply Hdel. apply list_elem_of_In. exact He.
    + apply (Hlater d Hin e He).
Qed.

(** C8. When the observer's callback receives entries for observed
    targets, each of which, if intersecting, still has a parent node,
    every intersecting entry's target gets, by the time the callback
    returns, an animation delay of 0.1 seconds times its zero-based
    position among the children of its parent, the class ['animate-in'],
    and is unobserved; from then on, whatever else happens to the
    document, no delivery of the observer carries an entry for that
    target, so it is never processed again.  The factor 0.1 is the
    binary64 Number 7205759403792794 * 2^-56, the quotient of 1 by 10,
    and the delay is the binary64 product of the position and this
    factor, printed in front of ['s']. *)
Theorem entrance_animation_one_shot (st : AnimationManager.state)
    (entries : list entry) (e : entry) (siblings : list node) :
  deliverable entries st ->
  (forall e', In e' entries -> isIntersecting e' = true ->
              is_Some (parentChildren st !! target e')) ->
  In e entries ->
  isIntersecting e = true ->
  parentChildren st !! target e = Some siblings ->
  exists st1,
    callback entries st = Returned st1
    /\ target e ∈ observed st
    /\ animationDelay st1 !! target e
       = Some (Template ""
                 (num_mul (Number_of_Z (indexOf (target e) siblings))
                    (S754_finite false 7205759403792794 (-56)))
                 "s")
    /\ num_div (Number_of_Z 1) (Number_of_Z 10)
       = S754_finite false 7205759403792794 (-56)
    /\ (In (target e) siblings ->
        (0 <= indexOf (target e) siblings)%Z
        /\ siblings !! Z.to_nat (indexOf (target e) siblings) = Some (target e))
    /\ "animate-in" ∈ default ∅ (classLists st1 !! target e)
    /\ (target e ∉ observed st1)
    /\ (forall next ds st_end,
          observed next = observed st1 ->
          observer_run next ds st_end ->
          (target e ∉ observed st_end)
          /\ forall d, In d ds -> forall e', In e' d -> target e' <> target e).
Proof.
  intros Hdel Hconn Hin Hint Hsib.
  destruct (callback_animates entries st Hconn) as (st1 & Hrun & Hall).
  destruct (Hall e Hin Hint) as (siblings' & Hsib' & Hdelay & Hclass & Hobs).
  rewrite Hsib in Hsib'. injection Hsib' as <-.
  exists st1. split; [exact Hrun |]. split.
  { unfold deliverable in Hdel. rewrite Forall_forall in Hdel.
    apply Hdel, list_elem_of_In, Hin. }
  split; [exact Hdelay |]. split; [vm_compute; reflexivity |].
  split; [apply indexOf_spec |].
  split; [exact Hclass |]. split; [exact Hobs |].
  intros next ds st_end Hnext Hlater.
  apply (observer_run_never_again next ds st_end (target e) Hlater).
  rewrite Hnext. exact Hobs.
Qed.

(** The third of three children, position 2: its delay is 0.1 * 2, the
    binary64 Number 7205759403792794 * 2^-55, that is 0.2. *)
Lemma entrance_animation_one_shot_witness :
  exists st1,
    callback [ {| target := 6%nat; isIntersecting := true |} ] sample_document
    = Returned st1
    /\ animationDelay st1 !! 6%nat
       = Some (Template "" (S754_finite false 7205759403792794 (-55)) "s")
    /\ "animate-in" ∈ default ∅ (classLists st1 !! 6%nat)
    /\ (6%nat ∉ observed st1).
Proof.
  destruct (entrance_animation_one_shot sample_document
              [ {| target := 6%nat; isIntersecting := true |} ]
              {| target := 6%nat; isIntersecting := true |}
              [4; 5; 6]%nat)
    as (st1 & Hrun & _ & Hdelay & _ & _ & Hclass & Hobs & _).
  - apply Forall_cons. split; [vm_compute; reflexivity | apply Forall_nil; exact I].
  - intros e' [<- | []] _. exists [4; 5; 6]%nat. reflexivity.
  - left; reflexivity.
  - reflexivity.
  - reflexivity.
  - exists st1. split; [exact Hrun |]. split; [exact Hdelay |].
    split; [exact Hclass | exact Hobs].
Defined.

(** The delays of the first four positions, evaluated: 0, 0.1, 0.2 and
    0.1 * 3, which is 5404319552844596 * 2^-54, one unit above the
    Number nearest to 0.3. *)
Example stagger_delay_values :
  stagger_delay 0 = S754_zero false
  /\ stagger_delay 1 = S754_finite false 7205759403792794 (-56)
  /\ stagger_delay 2 = S754_finite false 7205759403792794 (-55)
  /\ stagger_delay 3 = S754_finite false 5404319552844596 (-54)
  /\ num_div (Number_of_Z 3) (Number_of_Z 10)
     = S754_finite false 5404319552844595 (-54).
Proof. repeat split; vm_compute; reflexivity. Qed.

(** The delay of the third child, as a Number: 0.1 * 2 = 0.2. *)
Example stagger_delay_third :
  stagger_delay 2 = SFopp num_neg_0_2.
Proof. vm_compute. reflexivity. Qed.

(* ===================================================================== *)
(** * Further properties of ThemeManager                                  *)
(* ===================================================================== *)

Section ThemeFrame.

Variable css : element -> string -> string.

Lemma updateRgbVariable_classList (root : element) (entry : string * string) :
  classList (updateRgbVariable root entry) = classList root.
Proof.
  destruct entry as [name hex]. unfold updateRgbVariable.
  destruct (hexToRgb hex) as [v|]; [| reflexivity].
  destruct (truthy (Some v)); reflexivity.
Qed.

Lemma updateRgbVariables_classList (root : element) :
  classList (updateRgbVariables css root) = classList root.
Proof.
  unfold updateRgbVariables. generalize (colors css root). intros entries.
  revert root. induction entries as [| entry entries IH]; intros root.
  - reflexivity.
  - cbn [fold_left]. rewrite IH. apply updateRgbVariable_classList.
Qed.

Lemma applyTheme_root_classes (theme : string) (st : ThemeManager.state) :
  classList (htmlElement (page (applyTheme css theme st)))
  = {[ "theme-transition" ]}
    ∪ classList (classList_toggle "dark-mode" (String.eqb theme "dark")
                   (htmlElement (page st))).
Proof.
  unfold applyTheme. destruct (page st) as [ls mm ml html tt sun moon pt].
  cbn [set_htmlElement htmlElement sunIcon moonIcon].
  destruct sun, moon; cbn -[updateRgbVariables classList_toggle];
    rewrite updateRgbVariables_classList; reflexivity.
Qed.

Lemma applyTheme_icons (theme : string) (st : ThemeManager.state) :
  (sunIcon (page (applyTheme css theme st)),
   moonIcon (page (applyTheme css theme st)))
  = match sunIcon (page st), moonIcon (page st) with
    | Some sun, Some moon =>
        (Some (classList_toggle "hidden" (String.eqb theme "dark") sun),
         Some (classList_toggle "hidden" (negb (String.eqb theme "dark")) moon))
    | sun, moon => (sun, moon)
    end.
Proof.
  unfold applyTheme. destruct (page st) as [ls mm ml html tt sun moon pt].
  cbn [set_htmlElement htmlElement sunIcon moonIcon].
  destruct sun, moon; reflexivity.
Qed.

Lemma applyTheme_registrations (theme : string) (st : ThemeManager.state) :
  mediaQuery_listeners (page (applyTheme css theme st))
  = mediaQuery_listeners (page st)
  /\ themeToggle (page (applyTheme css theme st)) = themeToggle (page st)
  /\ mediaQuery_matches (page (applyTheme css theme st))
     = mediaQuery_matches (page st)
  /\ pendingTimeouts (page (applyTheme css theme st))
     = S (pendingTimeouts (page st)).
Proof.
  unfold applyTheme. destruct (page st) as [ls mm ml html tt sun moon pt].
  cbn [set_htmlElement htmlElement sunIcon moonIcon].
  destruct sun, moon; repeat split; reflexivity.
Qed.

Lemma applyTheme_localStorage (theme : string) (st : ThemeManager.state) :
  localStorage (page (applyTheme css theme st))
  = <[ "theme" := theme ]> (localStorage (page st)).
Proof.
  unfold applyTheme. destruct (page st) as [ls mm ml html tt sun moon pt].
  cbn [set_htmlElement htmlElement sunIcon moonIcon].
  destruct sun, moon; reflexivity.
Qed.

Lemma dark_mode_in_toggle (theme : string) (el : element) :
  "dark-mode" ∈ ({[ "theme-transition" ]} : gset string)
                ∪ classList (classList_toggle "dark-mode" (String.eqb theme "dark") el)
  <-> theme = "dark".
Proof.
  rewrite elem_of_union, elem_of_singleton. unfold classList_toggle. cbn [classList].
  destruct (String.eqb_spec theme "dark") as [-> | Hne].
  - rewrite elem_of_union, elem_of_singleton. tauto.
  - rewrite elem_of_difference, elem_of_singleton.
    split; [intros [Heq | [_ Hnot]]; [discriminate Heq | contradiction Hnot; reflexivity]
           | intros Heq; contradiction].
Qed.

Lemma hidden_in_toggle (force : bool) (el : element) :
  "hidden" ∈ classList (classList_toggle "hidden" force el) <-> force = true.
Proof.
  unfold classList_toggle. cbn [classList]. destruct force.
  - rewrite elem_of_union, elem_of_singleton. tauto.
  - rewrite elem_of_difference, elem_of_singleton.
    split; [intros [_ Hnot]; contradiction Hnot; reflexivity | discriminate].
Qed.

Lemma applyTheme_dom_in_sync (theme : string) (st : ThemeManager.state) :
  dom_in_sync (applyTheme css theme st).
Proof.
  split.
  - rewrite applyTheme_root_classes, applyTheme_currentTheme.
    apply dark_mode_in_toggle.
  - intros sun' moon' Hsun Hmoon.
    pose proof (applyTheme_icons theme st) as Hicons.
    rewrite Hsun, Hmoon in Hicons. rewrite applyTheme_currentTheme.
    destruct (sunIcon (page st)) as [sun|], (moonIcon (page st)) as [moon|];
      try discriminate Hicons.
    injection Hicons as -> ->. rewrite !hidden_in_toggle.
    destruct (String.eqb_spec theme "dark") as [-> | Hne]; cbn [negb].
    + split; [tauto | split; [discriminate | intros Hn; contradiction Hn; reflexivity]].
    + split; [split; [discriminate | contradiction] | tauto].
Qed.

Lemma init_frame (st : ThemeManager.state) :
  classList (htmlElement (page (init css st)))
  = classList (htmlElement (page (applyTheme css (currentTheme st) st)))
  /\ sunIcon (page (init css st))
     = sunIcon (page (applyTheme css (currentTheme st) st))
  /\ moonIcon (page (init css st))
     = moonIcon (page (applyTheme css (currentTheme st) st))
  /\ pendingTimeouts (page (init css st))
     = pendingTimeouts (page (applyTheme css (currentTheme st) st))
  /\ localStorage (page (init css st))
     = localStorage (page (applyTheme css (currentTheme st) st)).
Proof.
  unfold init. cbn [page set_htmlElement htmlElement sunIcon moonIcon
                    pendingTimeouts localStorage set_listeners].
  rewrite updateRgbVariables_classList. repeat split; reflexivity.
Qed.

Lemma constructor_dom_in_sync (b : browser) : dom_in_sync (constructor css b).
Proof.
  unfold constructor.
  set (st0 := {| page := b; currentTheme := getInitialTheme b |}).
  destruct (init_frame st0) as (Hcls & Hsun & Hmoon & _).
  destruct (applyTheme_dom_in_sync (currentTheme st0) st0) as [Hroot Hicons].
  split.
  - rewrite Hcls, init_currentTheme. rewrite applyTheme_currentTheme in Hroot.
    exact Hroot.
  - intros sun moon Hs Hm. rewrite Hsun in Hs. rewrite Hmoon in Hm.
    rewrite init_currentTheme.
    specialize (Hicons sun moon Hs Hm).
    rewrite applyTheme_currentTheme in Hicons. exact Hicons.
Qed.

Lemma transitionTimeout_dom_in_sync (st : ThemeManager.state) :
  dom_in_sync st -> dom_in_sync (transitionTimeout st).
Proof.
  intros [Hroot Hicons]. unfold transitionTimeout.
  destruct (pendingTimeouts (page st)); [split; assumption |].
  split.
  - cbn [page htmlElement set_pendingTimeouts set_htmlElement currentTheme
         classList_remove classList].
    rewrite elem_of_difference, elem_of_singleton. rewrite <- Hroot.
    split; [tauto | intros Hin; split; [exact Hin | discriminate]].
  - exact Hicons.
Qed.

Lemma run_operation_dom_in_sync (op : operation) (st : ThemeManager.state) :
  dom_in_sync st -> dom_in_sync (run_operation css op st).
Proof.
  intros Hsync. destruct op as [| theme | matches |]; cbn [run_operation].
  - apply applyTheme_dom_in_sync.
  - unfold setTheme.
    destruct (strict_equals_string theme "light" || strict_equals_string theme "dark");
      [| exact Hsync].
    destruct theme; try exact Hsync. apply applyTheme_dom_in_sync.
  - unfold handleSystemThemeChange.
    destruct (negb (truthy (getItem_theme (page st)))); [| exact Hsync].
    apply applyTheme_dom_in_sync.
  - apply transitionTimeout_dom_in_sync, Hsync.
Qed.

End ThemeFrame.

(** X1. In every state reached from the constructor by the manager's
    operations, the document shows the current theme: the root element
    carries the class ['dark-mode'] exactly when the current theme is
    ['dark'] and, when both icons exist, the sun icon is hidden exactly in
    the dark theme and the moon icon exactly in the light theme. *)
Theorem reachable_dom_in_sync (css : element -> string -> string)
    (st : ThemeManager.state) :
  reachable css st -> dom_in_sync st.
Proof.
  intros Hreach. induction Hreach as [b | op st _ IH].
  - apply constructor_dom_in_sync.
  - apply run_operation_dom_in_sync, IH.
Qed.

Lemma reachable_dom_in_sync_witness :
  dom_in_sync
    (run_operation no_stylesheet OpTransitionTimeout
       (run_operation no_stylesheet OpToggleTheme
          (constructor no_stylesheet (sample_browser ∅ true)))).
Proof.
  apply (reachable_dom_in_sync no_stylesheet).
  apply (reachable_operation no_stylesheet OpTransitionTimeout).
  apply (reachable_operation no_stylesheet OpToggleTheme).
  apply reachable_constructor.
Defined.

Section ThemeRuns.

Variable css : element -> string -> string.

Lemma run_operations_invariant (P : ThemeManager.state -> Prop) :
  (forall op st, P st -> P (run_operation css op st)) ->
  forall ops st, P st -> P (run_operations css ops st).
Proof.
  intros Hstep ops. unfold run_operations.
  induction ops as [| op ops IH]; intros st HP; [exact HP |].
  cbn [fold_left]. apply IH, Hstep, HP.
Qed.

Lemma run_operations_reachable (ops : list operation) (b : browser) :
  reachable css (run_operations css ops (constructor css b)).
Proof.
  apply (run_operations_invariant (reachable css)).
  - intros op st Hst. apply reachable_operation, Hst.
  - apply reachable_constructor.
Qed.

Lemma run_operation_cases (op : operation) (st : ThemeManager.state) :
  run_operation css op st = st
  \/ (exists theme, run_operation css op st = applyTheme css theme st)
  \/ (op = OpTransitionTimeout /\ run_operation css op st = transitionTimeout st).
Proof.
  destruct op as [| theme | matches |]; cbn [run_operation].
  - right; left. eexists. reflexivity.
  - unfold setTheme.
    destruct (strict_equals_string theme "light" || strict_equals_string theme "dark");
      [| left; reflexivity].
    destruct theme; try (left; reflexivity). right; left. eexists. reflexivity.
  - unfold handleSystemThemeChange.
    destruct (negb (truthy (getItem_theme (page st)))); [| left; reflexivity].
    right; left. eexists. reflexivity.
  - right; right. split; reflexivity.
Qed.

Lemma transitionTimeout_frame (st : ThemeManager.state) :
  localStorage (page (transitionTimeout st)) = localStorage (page st)
  /\ sunIcon (page (transitionTimeout st)) = sunIcon (page st)
  /\ moonIcon (page (transitionTimeout st)) = moonIcon (page st)
  /\ mediaQuery_listeners (page (transitionTimeout st))
     = mediaQuery_listeners (page st)
  /\ themeToggle (page (transitionTimeout st)) = themeToggle (page st).
Proof.
  unfold transitionTimeout.
  destruct (pendingTimeouts (page st)); repeat split; reflexivity.
Qed.

End ThemeRuns.

(** X3. In every state reached from the constructor by the manager's
    operations, a change of the operating system's colour scheme has no
    effect: the handler returns the state unchanged, because the
    constructor has already stored a theme. *)
Theorem reachable_ignores_system_change (css : element -> string -> string)
    (st : ThemeManager.state) (matches : bool) :
  reachable css st -> handleSystemThemeChange css matches st = st.
Proof.
  intros Hreach. destruct (reachable_invariant css st Hreach) as [Hv Hs].
  unfold handleSystemThemeChange. rewrite Hs, (truthy_valid_theme _ Hv).
  reflexivity.
Qed.

Lemma reachable_ignores_system_change_witness :
  handleSystemThemeChange no_stylesheet true
    (constructor no_stylesheet (sample_browser ∅ false))
  = constructor no_stylesheet (sample_browser ∅ false).
Proof.
  apply (reachable_ignores_system_change no_stylesheet).
  apply reachable_constructor.
Defined.

(** X4. The theme survives a reload: a manager constructed on any page
    whose [localStorage] is the one left by a reachable state starts with
    that state's current theme, whatever the operating system prefers. *)
Theorem theme_survives_reload (css : element -> string -> string)
    (st : ThemeManager.state) (b : browser) :
  reachable css st ->
  localStorage b = localStorage (page st) ->
  currentTheme (constructor css b) = currentTheme st
  /\ getItem_theme (page (constructor css b)) = Some (currentTheme st).
Proof.
  intros Hreach Hsame. destruct (reachable_invariant css st Hreach) as [Hv Hs].
  assert (Hinit : getInitialTheme b = currentTheme st).
  { unfold getInitialTheme, getItem_theme. rewrite Hsame.
    unfold getItem_theme in Hs. rewrite Hs, (truthy_valid_theme _ Hv).
    destruct Hv as [-> | ->]; reflexivity. }
  unfold constructor. rewrite init_currentTheme, init_stored.
  cbn [currentTheme]. rewrite Hinit. split; reflexivity.
Qed.

Lemma theme_survives_reload_witness :
  currentTheme
    (constructor no_stylesheet (sample_browser {[ "theme" := "light" ]} true))
  = currentTheme (constructor no_stylesheet (sample_browser ∅ false)).
Proof.
  apply (theme_survives_reload no_stylesheet
           (constructor no_stylesheet (sample_browser ∅ false))
           (sample_browser {[ "theme" := "light" ]} true)).
  - apply reachable_constructor.
  - vm_compute. reflexivity.
Defined.

(** X5. [toggleTheme] never leaves the current theme as it was, and the
    theme it sets is always ['light'] or ['dark']: from ['light'] it goes
    to ['dark'], from anything else, valid or not, to ['light']. *)
Theorem toggleTheme_flips (css : element -> string -> string)
    (st : ThemeManager.state) :
  currentTheme (toggleTheme css st) <> currentTheme st
  /\ valid_theme (currentTheme (toggleTheme css st))
  /\ (currentTheme (toggleTheme css st) = "dark" <-> currentTheme st = "light").
Proof.
  rewrite toggleTheme_currentTheme.
  destruct (String.eqb_spec (currentTheme st) "light") as [Heq | Hne].
  - rewrite Heq. split; [discriminate | split; [right; reflexivity | tauto]].
  - split; [congruence | split; [left; reflexivity |]].
    split; [discriminate | contradiction].
Qed.

(** X6. The constructor adds exactly one ['change'] listener to the media
    query and, when the toggle button exists, exactly one ['click']
    listener to it; no later operation adds or removes a listener. *)
Theorem listeners_registered_once (css : element -> string -> string)
    (b : browser) (ops : list operation) :
  mediaQuery_listeners (page (run_operations css ops (constructor css b)))
  = S (mediaQuery_listeners b)
  /\ themeToggle (page (run_operations css ops (constructor css b)))
     = option_map S (themeToggle b).
Proof.
  apply (run_operations_invariant css
           (fun st => mediaQuery_listeners (page st) = S (mediaQuery_listeners b)
                      /\ themeToggle (page st) = option_map S (themeToggle b))).
  - intros op st Hst.
    destruct (run_operation_cases css op st) as [-> | [[theme ->] | [_ ->]]].
    + exact Hst.
    + destruct (applyTheme_registrations css theme st) as (-> & -> & _). exact Hst.
    + destruct (transitionTimeout_frame st) as (_ & _ & _ & -> & ->). exact Hst.
  - unfold constructor, init.
    set (st0 := {| page := b; currentTheme := getInitialTheme b |}).
    cbn [page set_htmlElement set_listeners mediaQuery_listeners themeToggle].
    destruct (applyTheme_registrations css (currentTheme st0) st0) as (-> & -> & _).
    split; [reflexivity |]. cbn [st0 page]. destruct (themeToggle b); reflexivity.
Qed.

(** X10. The manager writes no key of [localStorage] other than
    ['theme']: after construction and any sequence of operations, every
    other key holds what the page had there. *)
Theorem only_theme_key_written (css : element -> string -> string)
    (b : browser) (ops : list operation) (key : string) :
  key <> "theme" ->
  localStorage (page (run_operations css ops (constructor css b))) !! key
  = localStorage b !! key.
Proof.
  intros Hkey.
  assert (Happly : forall theme st,
             localStorage (page (applyTheme css theme st)) !! key
             = localStorage (page st) !! key).
  { intros theme st. rewrite applyTheme_localStorage.
    apply lookup_insert_ne. congruence. }
  apply (run_operations_invariant css
           (fun st => localStorage (page st) !! key = localStorage b !! key)).
  - intros op st Hst.
    destruct (run_operation_cases css op st) as [-> | [[theme ->] | [_ ->]]].
    + exact Hst.
    + rewrite Happly. exact Hst.
    + destruct (transitionTimeout_frame st) as (-> & _). exact Hst.
  - unfold constructor.
    set (st0 := {| page := b; currentTheme := getInitialTheme b |}).
    destruct (init_frame css st0) as (_ & _ & _ & _ & ->).
    rewrite Happly. reflexivity.
Qed.

Lemma only_theme_key_written_witness :
  localStorage
    (page (run_operations no_stylesheet [OpToggleTheme]
             (constructor no_stylesheet
                (sample_browser {[ "lang" := "es" ]} false)))) !! "lang"
  = localStorage (sample_browser {[ "lang" := "es" ]} false) !! "lang".
Proof.
  apply (only_theme_key_written no_stylesheet
           (sample_browser {[ "lang" := "es" ]} false) [OpToggleTheme] "lang").
  discriminate.
Defined.

(** ** The transition class and its timeouts *)

Lemma applyTheme_transition_guarded (css : element -> string -> string)
    (theme : string) (st : ThemeManager.state) :
  transition_guarded (applyTheme css theme st).
Proof.
  intros _. destruct (applyTheme_registrations css theme st) as (_ & _ & _ & ->).
  lia.
Qed.

Lemma transitionTimeout_transition_guarded (st : ThemeManager.state) :
  transition_guarded st -> transition_guarded (transitionTimeout st).
Proof.
  intros Hguard. unfold transitionTimeout.
  destruct (pendingTimeouts (page st)) as [| pending]; [exact Hguard |].
  intros Hin. cbn [page htmlElement set_pendingTimeouts set_htmlElement
                   classList_remove classList] in Hin.
  apply elem_of_difference in Hin. destruct Hin as [_ Hnot].
  contradiction Hnot. apply elem_of_singleton. reflexivity.
Qed.

Lemma reachable_transition_guarded (css : element -> string -> string)
    (st : ThemeManager.state) :
  reachable css st -> transition_guarded st.
Proof.
  intros Hreach. induction Hreach as [b | op st _ IH].
  - unfold constructor.
    set (st0 := {| page := b; currentTheme := getInitialTheme b |}).
    destruct (init_frame css st0) as (_ & _ & _ & Hpending & _).
    intros _. rewrite Hpending.
    destruct (applyTheme_registrations css (currentTheme st0) st0) as (_ & _ & _ & ->).
    lia.
  - destruct (run_operation_cases css op st) as [-> | [[theme ->] | [_ ->]]].
    + exact IH.
    + apply applyTheme_transition_guarded.
    + apply transitionTimeout_transition_guarded, IH.
Qed.

Lemma fire_timeouts_all (n : nat) (st : ThemeManager.state) :
  pendingTimeouts (page st) = n ->
  transition_guarded st ->
  pendingTimeouts (page (fire_timeouts n st)) = 0%nat
  /\ ("theme-transition" ∉ classList (htmlElement (page (fire_timeouts n st))))
  /\ currentTheme (fire_timeouts n st) = currentTheme st
  /\ localStorage (page (fire_timeouts n st)) = localStorage (page st).
Proof.
  revert st. induction n as [| k IH]; intros st Hpending Hguard.
  - cbn [fire_timeouts]. split; [exact Hpending |].
    split; [| split; reflexivity].
    intros Hin. specialize (Hguard Hin). lia.
  - cbn [fire_timeouts].
    destruct (IH (transitionTimeout st)) as (H0 & Hcls & Hcur & Hsto).
    + unfold transitionTimeout. rewrite Hpending. reflexivity.
    + apply transitionTimeout_transition_guarded, Hguard.
    + destruct (transitionTimeout_theme st) as [Hc _].
      destruct (transitionTimeout_frame st) as (Hl & _).
      split; [exact H0 | split; [exact Hcls | split]].
      * rewrite Hcur. exact Hc.
      * rewrite Hsto. exact Hl.
Qed.

(** X7. The transition class does not outlive its timeouts: in every
    state reached from the constructor by the manager's operations, the
    root carries ['theme-transition'] only while a timeout is pending, and
    once all pending timeouts have fired none is pending, the class is
    gone, and the current theme and the storage are as they were. *)
Theorem transition_class_removed (css : element -> string -> string)
    (st : ThemeManager.state) :
  reachable css st ->
  transition_guarded st
  /\ let st' := fire_timeouts (pendingTimeouts (page st)) st in
     pendingTimeouts (page st') = 0%nat
     /\ ("theme-transition" ∉ classList (htmlElement (page st')))
     /\ currentTheme st' = currentTheme st
     /\ localStorage (page st') = localStorage (page st).
Proof.
  intros Hreach. pose proof (reachable_transition_guarded css st Hreach) as Hguard.
  split; [exact Hguard |]. cbv zeta.
  apply fire_timeouts_all; [reflexivity | exact Hguard].
Qed.

Lemma transition_class_removed_witness :
  transition_guarded
    (run_operation no_stylesheet OpToggleTheme
       (constructor no_stylesheet (sample_browser ∅ true))).
Proof.
  refine (proj1 (transition_class_removed no_stylesheet _ _)).
  apply (reachable_operation no_stylesheet OpToggleTheme).
  apply reachable_constructor.
Defined.

(* ===================================================================== *)
(** * Further properties of the colour conversion                         *)
(* ===================================================================== *)

Lemma hexToRgb_nonempty (hex v : string) : hexToRgb hex = Some v -> v <> "".
Proof.
  unfold hexToRgb.
  destruct (negb (String.length
                    (if (String.length (replace_first_with_empty "#" hex) =? 3)%nat
                     then double_chars (replace_first_with_empty "#" hex)
                     else replace_first_with_empty "#" hex) =? 6)%nat);
    [discriminate |].
  intros Heq. injection Heq as <-.
  destruct (int_or_nan_to_string _) as [| c rest]; cbn [append]; discriminate.
Qed.

Lemma apply_writes_last (k v : string) (writes : list (string * string))
    (el : element) :
  (forall v', In (k, v') writes -> v' = v) ->
  In (k, v) writes ->
  v <> "" ->
  style (fold_left apply_write writes el) !! k = Some v.
Proof.
  revert el. induction writes as [| [k' v'] writes IH]; intros el Hfun Hin Hne;
    [destruct Hin |].
  cbn [fold_left].
  destruct (in_dec string_dec k (map fst writes)) as [Hlater | Hnot].
  - apply in_map_iff in Hlater. destruct Hlater as ([k2 v2] & Hk & Hin2).
    cbn [fst] in Hk. subst k2.
    assert (v2 = v) by (apply Hfun; right; exact Hin2). subst v2.
    apply IH; [intros w Hw; apply Hfun; right; exact Hw | exact Hin2 | exact Hne].
  - rewrite apply_writes_other by exact Hnot.
    destruct Hin as [Heq | Hin].
    + injection Heq as -> ->. unfold apply_write, setProperty. cbn [fst snd style].
      destruct (String.eqb_spec v "") as [-> | _]; [contradiction |].
      apply lookup_insert_eq.
    + contradiction Hnot. apply in_map_iff. exists (k, v). split; [reflexivity | exact Hin].
Qed.

(** X8. For each of the six colours, whenever [hexToRgb] converts the
    trimmed computed value, [updateRgbVariables] leaves exactly the
    converted string in that colour's ['-rgb'] variable of the root's
    inline style; the converted string is never empty, so the guard
    [if (rgb)] only filters [null]. *)
Theorem converted_colour_written (css : element -> string -> string)
    (root : element) (name v : string) :
  In name color_names ->
  hexToRgb (trim (css root ("--color-" ++ name))) = Some v ->
  style (updateRgbVariables css root) !! rgb_variable name = Some v
  /\ v <> "".
Proof.
  intros Hname Hconv. pose proof (hexToRgb_nonempty _ _ Hconv) as Hne.
  split; [| exact Hne].
  rewrite updateRgbVariables_writes. apply apply_writes_last.
  - intros v' Hin. apply rgb_writes_from in Hin.
    destruct Hin as (n & Hn & Heq & Hconv').
    apply (rgb_variable_inj name n Hname Hn) in Heq. subst n. congruence.
  - unfold rgb_writes. apply in_flat_map.
    exists (name, trim (css root ("--color-" ++ name))). split.
    + unfold colors. apply in_map_iff. exists name. split; [reflexivity | exact Hname].
    + cbn [fst snd]. rewrite Hconv.
      destruct (String.eqb_spec v "") as [-> | _]; [contradiction |].
      cbn [truthy]. destruct (String.eqb_spec v "") as [-> | _]; [contradiction |].
      left. reflexivity.
  - exact Hne.
Qed.

Lemma converted_colour_written_witness :
  style (updateRgbVariables (stylesheet_with "tech" " #0af ") empty_element)
    !! rgb_variable "tech" = Some "0, 170, 255".
Proof.
  apply (converted_colour_written (stylesheet_with "tech" " #0af ")
           empty_element "tech" "0, 170, 255").
  - vm_compute. tauto.
  - vm_compute. reflexivity.
Defined.

(** X9. [updateRgbVariables] touches nothing but the six ['-rgb']
    variables: the class list of the root is unchanged, and so is every
    inline style property whose name is not one of those variables. *)
Theorem updateRgbVariables_frame (css : element -> string -> string)
    (root : element) (key : string) :
  (forall name, In name color_names -> key <> rgb_variable name) ->
  classList (updateRgbVariables css root) = classList root
  /\ style (updateRgbVariables css root) !! key = style root !! key.
Proof.
  intros Hother. split; [apply updateRgbVariables_classList |].
  rewrite updateRgbVariables_writes. apply apply_writes_other.
  intros Hin. apply in_map_iff in Hin. destruct Hin as ([k v] & Hk & Hin).
  cbn [fst] in Hk. subst k. apply rgb_writes_from in Hin.
  destruct Hin as (n & Hn & Heq & _). apply (Hother n Hn Heq).
Qed.

Lemma updateRgbVariables_frame_witness :
  style (updateRgbVariables (stylesheet_with "tech" "#0af")
           {| classList := ∅; style := {[ "--color-tech" := "#0af" ]} |})
    !! "--color-tech"
  = style {| classList := ∅; style := {[ "--color-tech" := "#0af" ]} |}
      !! "--color-tech".
Proof.
  refine (proj2 (updateRgbVariables_frame (stylesheet_with "tech" "#0af")
                   {| classList := ∅; style := {[ "--color-tech" := "#0af" ]} |}
                   "--color-tech" _)).
  intros name Hname. vm_compute in Hname.
  repeat (destruct Hname as [<- | Hname]; [discriminate |]). destruct Hname.
Defined.

Lemma replace_first_no_hash (s : string) :
  has_hash s = false -> replace_first_with_empty "#" s = s.
Proof.
  induction s as [| c s IH]; [reflexivity |].
  cbn [has_hash]. intros Hno. apply orb_false_elim in Hno. destruct Hno as [Hc Hs].
  rewrite replace_first_hash_cons, Hc, (IH Hs). reflexivity.
Qed.

(** X11. The leading ['#'] is optional: for every string that contains
    no ['#'], [hexToRgb] gives the same result with and without a ['#']
    in front of it. *)
Theorem hexToRgb_hash_optional (s : string) :
  has_hash s = false -> hexToRgb (String "#" s) = hexToRgb s.
Proof.
  intros Hno. unfold hexToRgb.
  rewrite (replace_first_hash_cons "#" s). cbn [Ascii.eqb Bool.eqb].
  rewrite (replace_first_no_hash s Hno). reflexivity.
Qed.

Lemma hexToRgb_hash_optional_witness :
  hexToRgb "#c0ffee" = hexToRgb "c0ffee".
Proof.
  apply (hexToRgb_hash_optional "c0ffee"). reflexivity.
Defined.

(** X12. The short form is the doubled long form: for any three
    characters [a], [b], [c], [hexToRgb] gives the same result for
    ['abc'] as for ['aabbcc'], also when the characters are not
    hexadecimal digits. *)
Theorem hexToRgb_shorthand (a b c : ascii) :
  hexToRgb (String a (String b (String c "")))
  = hexToRgb (String a (String a (String b (String b (String c (String c "")))))).
Proof.
  unfold hexToRgb. rewrite !replace_first_hash_cons.
  destruct (Ascii.eqb a "#"), (Ascii.eqb b "#"), (Ascii.eqb c "#"); reflexivity.
Qed.

Lemma pair_in_range_all :
  forallb (fun hi => forallb (pair_in_range hi) all_ascii) all_ascii = true.
Proof. vm_compute. reflexivity. Qed.

Lemma parseInt16_pair_range (hi lo : ascii) :
  in_pair_range (parseInt16 (String hi (String lo EmptyString))) = true.
Proof.
  pose proof pair_in_range_all as Hall.
  rewrite forallb_forall in Hall. specialize (Hall hi (in_all_ascii hi)).
  rewrite forallb_forall in Hall. exact (Hall lo (in_all_ascii lo)).
Qed.

(** X13. Whatever [hexToRgb] returns other than [null] is three
    components separated by [', '], and each component is either ['NaN']
    or the decimal form of an integer between -15 and 255: no component
    ever exceeds 255. *)
Theorem hexToRgb_components (hex v : string) :
  hexToRgb hex = Some v ->
  exists r g b,
    v = int_or_nan_to_string r ++ ", " ++ int_or_nan_to_string g
        ++ ", " ++ int_or_nan_to_string b
    /\ in_pair_range r = true /\ in_pair_range g = true
    /\ in_pair_range b = true.
Proof.
  unfold hexToRgb.
  remember (if (String.length (replace_first_with_empty "#" hex) =? 3)%nat
            then double_chars (replace_first_with_empty "#" hex)
            else replace_first_with_empty "#" hex) as hex2 eqn:Hhex2.
  clear Hhex2.
  destruct (Nat.eqb_spec (String.length hex2) 6) as [Hlen | _];
    cbn [negb]; [| discriminate].
  destruct hex2 as [| c1 [| c2 [| c3 [| c4 [| c5 [| c6 [| c7 rest]]]]]]];
    try discriminate Hlen.
  cbn [substr substring]. intros Heq. injection Heq as <-.
  eexists _, _, _. split; [reflexivity |].
  repeat split; apply parseInt16_pair_range.
Qed.

Lemma hexToRgb_components_witness :
  exists r g b,
    "-1, NaN, 255" = int_or_nan_to_string r ++ ", " ++ int_or_nan_to_string g
                     ++ ", " ++ int_or_nan_to_string b
    /\ in_pair_range r = true /\ in_pair_range g = true
    /\ in_pair_range b = true.
Proof.
  apply (hexToRgb_components "-1zzff" "-1, NaN, 255").
  vm_compute. reflexivity.
Defined.

(* ===================================================================== *)
(** * Further properties of the scroll listener                           *)
(* ===================================================================== *)

(** ** Signs of products and quotients *)

Lemma shr_1_nonneg (mrs : shr_record) :
  (0 <= shr_m mrs)%Z -> (0 <= shr_m (shr_1 mrs))%Z.
Proof.
  destruct mrs as [m r s]. cbn [shr_m]. intros Hm.
  destruct m as [| [p | p |] | p]; cbn; lia.
Qed.

Lemma iter_pos_keeps {A : Type} (P : A -> Prop) (f : A -> A) :
  (forall x, P x -> P (f x)) ->
  forall p x, P x -> P (SpecFloat.iter_pos f p x).
Proof.
  intros Hf. induction p as [p IH | p IH |]; intros x Hx;
    cbn [SpecFloat.iter_pos].
  - apply IH, IH, Hf, Hx.
  - apply IH, IH, Hx.
  - apply Hf, Hx.
Qed.

Lemma shr_nonneg (mrs : shr_record) (e n : Z) :
  (0 <= shr_m mrs)%Z -> (0 <= shr_m (fst (shr mrs e n)))%Z.
Proof.
  intros Hm. unfold shr. destruct n as [| p | p]; cbn [fst]; try exact Hm.
  apply (iter_pos_keeps (fun x => (0 <= shr_m x)%Z) shr_1 shr_1_nonneg), Hm.
Qed.

Lemma shr_fexp_nonneg (m e : Z) (l : location) :
  (0 <= m)%Z -> (0 <= shr_m (fst (shr_fexp prec emax m e l)))%Z.
Proof.
  intros Hm. unfold shr_fexp. apply shr_nonneg.
  destruct l as [| []]; exact Hm.
Qed.

Lemma round_nearest_even_nonneg (m : Z) (l : location) :
  (0 <= m)%Z -> (0 <= round_nearest_even m l)%Z.
Proof.
  intros Hm. unfold round_nearest_even.
  destruct l as [| []]; try exact Hm; [destruct (Z.even m) |]; lia.
Qed.

Lemma binary_round_aux_sign (sx : bool) (mx ex : Z) (lx : location) :
  (0 <= mx)%Z -> has_sign sx (binary_round_aux prec emax sx mx ex lx).
Proof.
  intros Hm. unfold binary_round_aux.
  pose proof (shr_fexp_nonneg mx ex lx Hm) as H1.
  destruct (shr_fexp prec emax mx ex lx) as [mrs' e']. cbn [fst] in H1.
  pose proof (shr_fexp_nonneg
                (round_nearest_even (shr_m mrs') (loc_of_shr_record mrs')) e'
                loc_Exact (round_nearest_even_nonneg _ _ H1)) as H2.
  destruct (shr_fexp prec emax _ e' loc_Exact) as [mrs'' e'']. cbn [fst] in H2.
  destruct (shr_m mrs'') as [| p | p]; [reflexivity | | lia].
  destruct (e'' <=? emax - prec)%Z; reflexivity.
Qed.

Lemma num_mul_sign (s1 s2 : bool) (x y : number) :
  has_sign s1 x -> has_sign s2 y ->
  is_finite y = true -> is_zero y = false ->
  has_sign (xorb s1 s2) (num_mul x y).
Proof.
  intros Hx Hy Hfin Hnz.
  destruct y as [sy | sy | | sy my ey]; try discriminate.
  cbn [has_sign] in Hy. subst sy.
  destruct x as [sx | sx | | sx mx ex]; cbn [has_sign] in Hx; try contradiction;
    subst sx; try reflexivity.
  unfold num_mul, SFmul. apply binary_round_aux_sign. lia.
Qed.

Lemma num_div_sign (s1 s2 : bool) (m1 m2 : positive) (e1 e2 : Z) :
  has_sign (xorb s1 s2)
    (num_div (S754_finite s1 m1 e1) (S754_finite s2 m2 e2)).
Proof.
  unfold num_div, SFdiv, SFdiv_core_binary.
  set (e' := Z.min _ _). set (m' := match (e1 - e2 - e')%Z with
                                     | Z0 => Z.pos m1
                                     | Z.pos _ => Z.shiftl (Z.pos m1) (e1 - e2 - e')
                                     | Z.neg _ => 0%Z
                                     end).
  assert (Hm' : (0 <= m')%Z).
  { unfold m'. destruct (e1 - e2 - e')%Z; [lia | | lia].
    apply Z.shiftl_nonneg. lia. }
  pose proof (Z.div_pos m' (Z.pos m2) Hm' ltac:(lia)) as Hq.
  unfold Z.div in Hq.
  destruct (Z.div_eucl m' (Z.pos m2)) as [q r].
  apply binary_round_aux_sign, Hq.
Qed.

Lemma Math_min_sign (s : bool) (p : number) :
  has_sign s p -> has_sign s (Math_min [p; num_100]).
Proof.
  unfold Math_min, Math_min_from.
  destruct p as [sp | sp | | sp m e]; cbn [has_sign]; try contradiction;
    intros <-.
  - destruct sp; reflexivity.
  - destruct sp; reflexivity.
  - change (SFltb (S754_finite sp m e) (S754_infinity false)) with true.
    cbv iota beta. destruct sp.
    + reflexivity.
    + destruct (SFltb num_100 (S754_finite false m e)); reflexivity.
Qed.

Lemma scrollProgress_sign (v : viewport) :
  is_finite (pageYOffset v) = true ->
  is_finite (maxScroll v) = true ->
  is_zero (pageYOffset v) && is_zero (maxScroll v) = false ->
  has_sign (xorb (sign_of (pageYOffset v)) (sign_of (maxScroll v)))
    (scrollProgress v).
Proof.
  intros Hoff Hmax Hnz. unfold scrollProgress.
  rewrite <- (xorb_false_r (xorb _ _)).
  apply num_mul_sign; try reflexivity.
  destruct (pageYOffset v) as [s1 | s1 | | s1 m1 e1]; try discriminate;
    destruct (maxScroll v) as [s2 | s2 | | s2 m2 e2]; try discriminate;
    try reflexivity.
  apply num_div_sign.
Qed.

(** X14. For a finite scroll offset and a finite scroll range, the Number
    printed into the bar's width is [NaN] exactly when the offset and the
    range are both zero; in every other case it is a Number whose sign is
    the sign of the offset times the sign of the range, so a document
    shorter than the window (negative range) gives a negative or
    negative-zero width. *)
Theorem scroll_progress_nan_or_signed (v : viewport) :
  is_finite (pageYOffset v) = true ->
  is_finite (maxScroll v) = true ->
  (clampedProgress v = S754_nan
   <-> is_zero (pageYOffset v) && is_zero (maxScroll v) = true)
  /\ (is_zero (pageYOffset v) && is_zero (maxScroll v) = false ->
      has_sign (xorb (sign_of (pageYOffset v)) (sign_of (maxScroll v)))
        (clampedProgress v)).
Proof.
  intros Hoff Hmax.
  destruct (is_zero (pageYOffset v) && is_zero (maxScroll v)) eqn:Hz.
  - split; [| discriminate]. split; [reflexivity | intros _].
    apply andb_prop in Hz. destruct Hz as [Hz1 Hz2].
    unfold clampedProgress, scrollProgress.
    destruct (pageYOffset v); try discriminate.
    destruct (maxScroll v); try discriminate. reflexivity.
  - pose proof (Math_min_sign _ _ (scrollProgress_sign v Hoff Hmax Hz)) as Hsign.
    fold (clampedProgress v) in Hsign.
    split; [| intros _; exact Hsign].
    split; [| discriminate]. intros Hnan. rewrite Hnan in Hsign. destruct Hsign.
Qed.

Lemma scroll_progress_nan_or_signed_witness :
  has_sign true (clampedProgress (sample_viewport 300 600 800)).
Proof.
  refine (proj2 (scroll_progress_nan_or_signed (sample_viewport 300 600 800) _ _) _);
    reflexivity.
Defined.

(** ** Effects of a scroll event *)

Lemma parallax_fold (t : text) (items : list node) (acc : AnimationManager.state) :
  let after := fold_left (fun st item => set_transform item t st) items acc in
  parentChildren after = parentChildren acc
  /\ observed after = observed acc
  /\ classLists after = classLists acc
  /\ animationDelay after = animationDelay acc
  /\ width after = width acc
  /\ (forall x, In x items -> transform after !! x = Some t)
  /\ (forall x, ~ In x items -> transform after !! x = transform acc !! x).
Proof.
  revert acc. induction items as [| item items IH]; intros acc; cbv zeta.
  - repeat split; try reflexivity. intros x [].
  - cbn [fold_left].
    destruct (IH (set_transform item t acc)) as (H1 & H2 & H3 & H4 & H5 & Hin & Hout).
    repeat split; try assumption.
    + intros x Hx. destruct (in_dec Nat.eq_dec x items) as [Hlater | Hnot].
      * apply Hin, Hlater.
      * destruct Hx as [<- | Hx]; [| contradiction].
        rewrite (Hout item Hnot). cbn [set_transform transform].
        apply lookup_insert_eq.
    + intros x Hx. rewrite Hout by (intros Hl; apply Hx; right; exact Hl).
      cbn [set_transform transform]. apply lookup_insert_ne.
      intros ->. apply Hx. left. reflexivity.
Qed.

Lemma onScroll_fields (bar : option node) (v : viewport)
    (st : AnimationManager.state) :
  parentChildren (onScroll bar v st) = parentChildren st
  /\ observed (onScroll bar v st) = observed st
  /\ classLists (onScroll bar v st) = classLists st
  /\ animationDelay (onScroll bar v st) = animationDelay st
  /\ width (onScroll bar v st)
     = match bar with
       | Some b => <[ b := Template "" (clampedProgress v) "%" ]> (width st)
       | None => width st
       end
  /\ (forall x, In x (parallaxItems v) ->
        transform (onScroll bar v st) !! x = Some (parallax_transform v))
  /\ (forall x, ~ In x (parallaxItems v) ->
        transform (onScroll bar v st) !! x = transform st !! x).
Proof.
  unfold onScroll.
  match goal with
  | |- context [fold_left _ _ ?acc] =>
      destruct (parallax_fold (parallax_transform v) (parallaxItems v) acc)
        as (H1 & H2 & H3 & H4 & H5 & Hin & Hout)
  end.
  unfold parallax_transform in *.
  split; [rewrite H1; destruct bar; reflexivity |].
  split; [rewrite H2; destruct bar; reflexivity |].
  split; [rewrite H3; destruct bar; reflexivity |].
  split; [rewrite H4; destruct bar; reflexivity |].
  split; [rewrite H5; destruct bar; reflexivity |].
  split.
  - exact Hin.
  - intros x Hx. rewrite (Hout x Hx). destruct bar; reflexivity.
Qed.

(** X15. A scroll event gives every parallax image the transform
    [translate3d(0, offset * -0.2 px, 0)] and leaves the transform of
    every other node alone; it assigns a width to the progress bar only,
    and it never touches the intersection observer, the class lists or
    the animation delays.  The factor -0.2 is the binary64 Number
    -7205759403792794 * 2^-55. *)
Theorem onScroll_effects (bar : option node) (v : viewport)
    (st : AnimationManager.state) (x : node) :
  (In x (parallaxItems v) ->
     transform (onScroll bar v st) !! x
     = Some (Template "translate3d(0, "
               (num_mul (pageYOffset v) (S754_finite true 7205759403792794 (-55)))
               "px, 0)"))
  /\ (~ In x (parallaxItems v) ->
      transform (onScroll bar v st) !! x = transform st !! x)
  /\ (bar <> Some x -> width (onScroll bar v st) !! x = width st !! x)
  /\ observed (onScroll bar v st) = observed st
  /\ classLists (onScroll bar v st) = classLists st
  /\ animationDelay (onScroll bar v st) = animationDelay st
  /\ parentChildren (onScroll bar v st) = parentChildren st.
Proof.
  destruct (onScroll_fields bar v st) as (H1 & H2 & H3 & H4 & H5 & Hin & Hout).
  split; [apply Hin |]. split; [apply Hout |].
  split; [| repeat split; assumption].
  intros Hbar. rewrite H5. destruct bar as [b|]; [| reflexivity].
  apply lookup_insert_ne. congruence.
Qed.

(** At offset 100 the images are moved by 100 * -0.2, the binary64
    Number -20. *)
Lemma onScroll_effects_witness :
  transform
    (onScroll None
       {| pageYOffset := Number_of_Z 100; scrollHeight := Number_of_Z 2000;
          innerHeight := Number_of_Z 800; parallaxItems := [3%nat] |}
       empty_document) !! 3%nat
  = Some (Template "translate3d(0, " (Number_of_Z (-20)) "px, 0)").
Proof.
  refine (proj1 (onScroll_effects None
                   {| pageYOffset := Number_of_Z 100;
                      scrollHeight := Number_of_Z 2000;
                      innerHeight := Number_of_Z 800;
                      parallaxItems := [3%nat] |}
                   empty_document 3%nat) _).
  left. reflexivity.
Defined.

Lemma state_eq (a b : AnimationManager.state) :
  parentChildren a = parentChildren b ->
  observed a = observed b ->
  classLists a = classLists b ->
  animationDelay a = animationDelay b ->
  transform a = transform b ->
  width a = width b ->
  a = b.
Proof.
  destruct a, b. cbn. intros -> -> -> -> -> ->. reflexivity.
Qed.

Lemma finite_has_own_sign (x : number) :
  is_finite x = true -> has_sign (sign_of x) x.
Proof. destruct x; try discriminate; reflexivity. Qed.

Lemma onScroll_overwrites (bar : option node) (v1 v2 : viewport)
    (st : AnimationManager.state) :
  (forall x, In x (parallaxItems v1) -> In x (parallaxItems v2)) ->
  onScroll bar v2 (onScroll bar v1 st) = onScroll bar v2 st.
Proof.
  intros Hsub.
  destruct (onScroll_fields bar v1 st) as (A1 & A2 & A3 & A4 & A5 & Ain & Aout).
  destruct (onScroll_fields bar v2 st) as (B1 & B2 & B3 & B4 & B5 & Bin & Bout).
  destruct (onScroll_fields bar v2 (onScroll bar v1 st))
    as (C1 & C2 & C3 & C4 & C5 & Cin & Cout).
  apply state_eq.
  - rewrite C1, A1, B1. reflexivity.
  - rewrite C2, A2, B2. reflexivity.
  - rewrite C3, A3, B3. reflexivity.
  - rewrite C4, A4, B4. reflexivity.
  - apply map_eq. intros x.
    destruct (in_dec Nat.eq_dec x (parallaxItems v2)) as [Hin | Hnot].
    + rewrite (Cin x Hin), (Bin x Hin). reflexivity.
    + rewrite (Cout x Hnot), (Bout x Hnot). apply Aout.
      intros Hin1. apply Hnot, Hsub, Hin1.
  - rewrite C5, A5, B5. destruct bar as [b|]; [| reflexivity].
    apply insert_insert_eq.
Qed.

(** X16. A later scroll event whose texts are valid overwrites an
    earlier one: when the second event has a finite offset and a progress
    that is a Number of positive sign (so between 0 and 100), and moves
    every image the first one moved, the texts assigned after both events
    are those the second alone assigns, and they are the texts of a
    finite translation and of a percentage between 0 and 100. *)
Theorem onScroll_last_wins (bar : option node) (v1 v2 : viewport)
    (st : AnimationManager.state) :
  is_finite (pageYOffset v2) = true ->
  has_sign false (clampedProgress v2) ->
  (forall x, In x (parallaxItems v1) -> In x (parallaxItems v2)) ->
  onScroll bar v2 (onScroll bar v1 st) = onScroll bar v2 st
  /\ SFltb (Number_of_Z 100) (clampedProgress v2) = false
  /\ SFltb (clampedProgress v2) (Number_of_Z 0) = false
  /\ has_sign (negb (sign_of (pageYOffset v2)))
       (num_mul (pageYOffset v2) num_neg_0_2).
Proof.
  intros Hfin Hvalid Hsub.
  split; [apply onScroll_overwrites, Hsub |].
  split; [apply Math_min_never_above |]. split.
  - destruct (clampedProgress v2) as [s | s | | s m e]; cbn [has_sign] in Hvalid;
      try contradiction; subst s; reflexivity.
  - rewrite <- xorb_true_r.
    apply num_mul_sign; try reflexivity. apply finite_has_own_sign, Hfin.
Qed.

Lemma onScroll_last_wins_witness :
  onScroll (Some 9%nat) (sample_viewport 700 2000 800)
    (onScroll (Some 9%nat) (sample_viewport 0 800 800) empty_document)
  = onScroll (Some 9%nat) (sample_viewport 700 2000 800) empty_document.
Proof.
  refine (proj1 (onScroll_last_wins (Some 9%nat) (sample_viewport 0 800 800)
                   (sample_viewport 700 2000 800) empty_document _ _ _)).
  - reflexivity.
  - vm_compute. reflexivity.
  - intros x [].
Defined.

(** X17. The parallax images move against the scroll direction: for a
    finite scroll offset, the vertical translation given to every
    parallax image is a Number, never [NaN], whose sign is opposite to
    the sign of the offset. *)
Theorem parallax_opposes_scroll (bar : option node) (v : viewport)
    (st : AnimationManager.state) (x : node) :
  is_finite (pageYOffset v) = true ->
  In x (parallaxItems v) ->
  exists rate,
    transform (onScroll bar v st) !! x
    = Some (Template "translate3d(0, " rate "px, 0)")
    /\ has_sign (negb (sign_of (pageYOffset v))) rate.
Proof.
  intros Hfin Hin. exists (num_mul (pageYOffset v) num_neg_0_2). split.
  - destruct (onScroll_fields bar v st) as (_ & _ & _ & _ & _ & Hmoved & _).
    apply (Hmoved x Hin).
  - rewrite <- xorb_true_r.
    apply num_mul_sign; try reflexivity. apply finite_has_own_sign, Hfin.
Qed.

Lemma parallax_opposes_scroll_witness :
  exists rate,
    transform
      (onScroll None
         {| pageYOffset := Number_of_Z 100; scrollHeight := Number_of_Z 2000;
            innerHeight := Number_of_Z 800; parallaxItems := [3%nat] |}
         empty_document) !! 3%nat
    = Some (Template "translate3d(0, " rate "px, 0)")
    /\ has_sign (negb (sign_of (Number_of_Z 100))) rate.
Proof.
  apply (parallax_opposes_scroll None
           {| pageYOffset := Number_of_Z 100; scrollHeight := Number_of_Z 2000;
              innerHeight := Number_of_Z 800; parallaxItems := [3%nat] |}
           empty_document 3%nat).
  - reflexivity.
  - left. reflexivity.
Defined.

(* ===================================================================== *)
(** * Further properties of the entrance animations and the hover effect  *)
(* ===================================================================== *)

Lemma Number_of_Z_sign (z : Z) : (0 <= z)%Z -> has_sign false (Number_of_Z z).
Proof.
  intros Hz. unfold Number_of_Z, binary_normalize.
  destruct z as [| m | m]; [reflexivity | | lia].
  unfold binary_round. destruct (shl_align m 0 _) as [mz ez].
  apply binary_round_aux_sign. lia.
Qed.

(** X18. The stagger delay of a target found among the children of its
    parent is a Number that is never negative and never [NaN]; for the
    first child it is exactly zero, printed as ['0s']. *)
Theorem stagger_delay_nonnegative (t : node) (siblings : list node) :
  In t siblings ->
  has_sign false (stagger_delay (indexOf t siblings))
  /\ (forall rest, siblings = t :: rest ->
        stagger_delay (indexOf t siblings) = S754_zero false
        /\ text_to_string (Template "" (stagger_delay (indexOf t siblings)) "s")
           = Some "0s").
Proof.
  intros Hin. split.
  - unfold stagger_delay. change false with (xorb false false).
    apply num_mul_sign; try reflexivity.
    apply Number_of_Z_sign. apply (indexOf_spec t siblings Hin).
  - intros rest ->. unfold indexOf. cbn [indexOf_from].
    rewrite Nat.eqb_refl. split; reflexivity.
Qed.

Lemma stagger_delay_nonnegative_witness :
  has_sign false (stagger_delay (indexOf 6%nat [4; 5; 6]%nat)).
Proof.
  refine (proj1 (stagger_delay_nonnegative 6%nat [4; 5; 6]%nat _)).
  right. right. left. reflexivity.
Defined.

Lemma callback_app (pre post : list entry) (st : AnimationManager.state) :
  callback (pre ++ post) st
  = match callback pre st with
    | Returned st' => callback post st'
    | Threw st' => Threw st'
    end.
Proof.
  revert st. induction pre as [| e pre IH]; intros st; [reflexivity |].
  cbn [app callback]. destruct (on_entry e st) as [st' | st']; [apply IH | reflexivity].
Qed.

Lemma on_entry_returned_observed (e : entry) (st st' : AnimationManager.state) :
  on_entry e st = Returned st' ->
  observed st'
  = observed st ∖ (if isIntersecting e then {[ target e ]} else ∅).
Proof.
  unfold on_entry. destruct (isIntersecting e).
  - destruct (parentChildren st !! target e); [| discriminate].
    intros Heq. injection Heq as <-. reflexivity.
  - intros Heq. injection Heq as <-. cbn.
    apply set_eq. intros x. rewrite elem_of_difference, elem_of_empty. tauto.
Qed.

(** X19. When the observer's callback returns, the observed targets are
    exactly the former ones without the targets of the intersecting
    entries: nothing else is unobserved and nothing is ever added.  A
    delivery without intersecting entries changes nothing at all. *)
Theorem callback_unobserves_exactly (entries : list entry)
    (st : AnimationManager.state) :
  (forall st1, callback entries st = Returned st1 ->
     observed st1 = observed st ∖ intersecting_targets entries)
  /\ ((forall e, In e entries -> isIntersecting e = false) ->
      callback entries st = Returned st).
Proof.
  split.
  - revert st. induction entries as [| e rest IH]; intros st st1 Hrun.
    + injection Hrun as <-. unfold intersecting_targets. cbn.
      apply set_eq. intros x. rewrite elem_of_difference, elem_of_empty. tauto.
    + cbn [callback] in Hrun.
      destruct (on_entry e st) as [st' | st'] eqn:Hstep; [| discriminate].
      rewrite (IH st' st1 Hrun), (on_entry_returned_observed e st st' Hstep).
      unfold intersecting_targets. cbn [List.filter].
      destruct (isIntersecting e); cbn [map].
      * rewrite list_to_set_cons. apply set_eq. intros x.
        rewrite !elem_of_difference, elem_of_union. tauto.
      * apply set_eq. intros x.
        rewrite !elem_of_difference, elem_of_empty. tauto.
  - revert st. induction entries as [| e rest IH]; intros st Hnone; [reflexivity |].
    cbn [callback]. unfold on_entry.
    rewrite (Hnone e (or_introl eq_refl)). apply IH.
    intros e' He'. apply Hnone. right. exact He'.
Qed.

Lemma callback_unobserves_exactly_witness :
  callback [ {| target := 4%nat; isIntersecting := false |};
             {| target := 5%nat; isIntersecting := false |} ] sample_document
  = Returned sample_document.
Proof.
  refine (proj2 (callback_unobserves_exactly
                   [ {| target := 4%nat; isIntersecting := false |};
                     {| target := 5%nat; isIntersecting := false |} ]
                   sample_document) _).
  intros e [<- | [<- | []]]; reflexivity.
Defined.

(** X20. An intersecting entry whose target has no parent node makes the
    callback throw at that entry: the effects of the entries before it
    remain, and none of the entries after it is processed. *)
Theorem callback_throws_at_orphan (pre post : list entry) (e : entry)
    (st st' : AnimationManager.state) :
  callback pre st = Returned st' ->
  isIntersecting e = true ->
  parentChildren st !! target e = None ->
  callback (pre ++ e :: post) st = Threw st'.
Proof.
  intros Hpre Hint Horphan. rewrite callback_app, Hpre. cbn [callback].
  pose proof (callback_parentChildren pre st) as Hdom.
  rewrite Hpre in Hdom. cbn [final_state] in Hdom.
  unfold on_entry. rewrite Hint, Hdom, Horphan. reflexivity.
Qed.

Lemma callback_throws_at_orphan_witness :
  callback ([] ++ {| target := 8%nat; isIntersecting := true |}
               :: [ {| target := 5%nat; isIntersecting := true |} ])
    sample_document
  = Threw sample_document.
Proof.
  apply (callback_throws_at_orphan [] _ _ sample_document sample_document);
    reflexivity.
Defined.

Lemma on_entry_frame (e : entry) (st : AnimationManager.state) (x : node) :
  transform (final_state (on_entry e st)) = transform st
  /\ width (final_state (on_entry e st)) = width st
  /\ ((isIntersecting e = true -> target e <> x) ->
      classLists (final_state (on_entry e st)) !! x = classLists st !! x
      /\ animationDelay (final_state (on_entry e st)) !! x = animationDelay st !! x
      /\ (x ∈ observed (final_state (on_entry e st)) <-> x ∈ observed st)).
Proof.
  unfold on_entry. destruct (isIntersecting e);
    [| repeat split; try reflexivity; tauto].
  destruct (parentChildren st !! target e);
    [| repeat split; try reflexivity; tauto].
  cbn [final_state transform width classLists animationDelay observed].
  split; [reflexivity | split; [reflexivity |]].
  intros Hne. specialize (Hne eq_refl).
  split; [apply lookup_insert_ne, Hne |].
  split; [apply lookup_insert_ne, Hne |].
  rewrite elem_of_difference, elem_of_singleton.
  split; [tauto | intros Hx; split; [exact Hx | congruence]].
Qed.

(** X21. The observer's callback, whether it returns or throws, never
    touches a transform or a width, and it leaves alone every node that
    is not the target of an intersecting entry: such a node keeps its
    class list, its animation delay and its place in or out of the
    observed targets. *)
Theorem callback_frame (entries : list entry) (st : AnimationManager.state)
    (x : node) :
  (forall e, In e entries -> isIntersecting e = true -> target e <> x) ->
  transform (final_state (callback entries st)) = transform st
  /\ width (final_state (callback entries st)) = width st
  /\ classLists (final_state (callback entries st)) !! x = classLists st !! x
  /\ animationDelay (final_state (callback entries st)) !! x
     = animationDelay st !! x
  /\ (x ∈ observed (final_state (callback entries st)) <-> x ∈ observed st).
Proof.
  revert st. induction entries as [| e rest IH]; intros st Hother.
  - cbn [callback final_state]. repeat split; try reflexivity; tauto.
  - cbn [callback].
    destruct (on_entry_frame e st x) as (Ht & Hw & Hx).
    destruct (Hx (Hother e (or_introl eq_refl))) as (Hc & Hd & Ho).
    destruct (on_entry e st) as [st' | st']; cbn [final_state] in *.
    + destruct (IH st') as (It & Iw & Ic & Id & Io).
      { intros e' He'. apply Hother. right. exact He'. }
      rewrite It, Iw, Ic, Id, Io. repeat split; try assumption; tauto.
    + repeat split; try assumption; tauto.
Qed.

Lemma callback_frame_witness :
  classLists
    (final_state
       (callback [ {| target := 5%nat; isIntersecting := true |} ] sample_document))
    !! 4%nat
  = classLists sample_document !! 4%nat.
Proof.
  refine (proj1 (proj2 (proj2 (callback_frame
            [ {| target := 5%nat; isIntersecting := true |} ]
            sample_document 4%nat _)))).
  intros e [<- | []] _. discriminate.
Defined.

Lemma unobserved_run_empty (st : AnimationManager.state)
    (ds : list (list entry)) (st_end : AnimationManager.state) :
  observer_run st ds st_end ->
  observed st = ∅ ->
  forall d, In d ds -> d = [].
Proof.
  intros Hrun. induction Hrun as [st | st entries next ds st' Hdel Hnext Hrun IH];
    intros Hempty d Hd; [destruct Hd |].
  assert (Hnil : entries = []).
  { destruct entries as [| e rest]; [reflexivity |].
    unfold deliverable in Hdel. apply Forall_cons in Hdel. destruct Hdel as [He _].
    rewrite Hempty in He. apply elem_of_empty in He. destruct He. }
  destruct Hd as [<- | Hd]; [exact Hnil |].
  apply IH; [| exact Hd]. rewrite Hnext, Hnil. exact Hempty.
Qed.

(** X22. Without [IntersectionObserver] the entrance animation is
    switched off silently: [setupScrollAnimations] observes nothing, so
    every delivery of the run that follows is empty and the callback
    never processes an entry. *)
Theorem no_observer_no_animation (items : list node)
    (st : AnimationManager.state) (ds : list (list entry))
    (st_end : AnimationManager.state) :
  observer_run (setupScrollAnimations false items st) ds st_end ->
  observed (setupScrollAnimations false items st) = ∅
  /\ forall d, In d ds -> d = [].
Proof.
  intros Hrun. split; [reflexivity |].
  apply (unobserved_run_empty _ ds st_end Hrun). reflexivity.
Qed.

Lemma no_observer_no_animation_witness :
  observed (setupScrollAnimations false [4; 5; 6]%nat sample_document) = ∅.
Proof.
  refine (proj1 (no_observer_no_animation [4; 5; 6]%nat sample_document []
                   (setupScrollAnimations false [4; 5; 6]%nat sample_document) _)).
  apply run_nil.
Defined.

(** X23. Leaving an item clears its transform whatever it was: entering
    and then leaving gives the state that leaving alone gives, and
    leaving and then entering the state that entering alone gives; both
    handlers change the transform of the hovered item only. *)
Theorem hover_enter_leave (item : node) (st : AnimationManager.state) :
  handleHoverLeave item (handleHoverEnter item st) = handleHoverLeave item st
  /\ handleHoverEnter item (handleHoverLeave item st) = handleHoverEnter item st
  /\ transform (handleHoverLeave item st) !! item = Some (Literal "")
  /\ (forall x, x <> item ->
        transform (handleHoverEnter item st) !! x = transform st !! x
        /\ transform (handleHoverLeave item st) !! x = transform st !! x).
Proof.
  unfold handleHoverLeave, handleHoverEnter, set_transform. cbn [transform].
  split; [rewrite insert_insert_eq; reflexivity |].
  split; [rewrite insert_insert_eq; reflexivity |].
  split; [apply lookup_insert_eq |].
  intros x Hx. split; apply lookup_insert_ne; congruence.
Qed.

Lemma hover_enter_leave_witness :
  transform (handleHoverEnter 5%nat sample_document) !! 4%nat
  = transform sample_document !! 4%nat.
Proof.
  refine (proj1 (proj2 (proj2 (proj2 (hover_enter_leave 5%nat sample_document)))
                   4%nat _)).
  discriminate.
Defined.

Lemma on_entry_again (e : entry) (st st' : AnimationManager.state) :
  on_entry e st = Returned st' -> on_entry e st' = Returned st'.
Proof.
  unfold on_entry.
  destruct (isIntersecting e); [| intros Heq; injection Heq as <-; reflexivity].
  destruct (parentChildren st !! target e) as [siblings|] eqn:Hsib; [| discriminate].
  intros Heq. injection Heq as <-.
  cbn [parentChildren observed classLists animationDelay transform width].
  rewrite Hsib. f_equal. apply state_eq;
    cbn [parentChildren observed classLists animationDelay transform width];
    try reflexivity.
  - apply set_eq. intros x. rewrite !elem_of_difference. tauto.
  - rewrite lookup_insert_eq, insert_insert_eq. f_equal.
    apply set_eq. intros x. cbn. rewrite !elem_of_union. tauto.
  - apply insert_insert_eq.
Qed.

(** X24. Processing an entry is idempotent: when the callback's body has
    handled an entry, handling the same entry again in the resulting
    state returns that very state, so a delivery in which an entry occurs
    twice in a row ends exactly like the delivery with one occurrence. *)
Theorem on_entry_idempotent (e : entry) (st : AnimationManager.state) :
  (forall st', on_entry e st = Returned st' -> on_entry e st' = Returned st')
  /\ (forall rest, callback (e :: e :: rest) st = callback (e :: rest) st).
Proof.
  split; [intros st'; apply on_entry_again |].
  intros rest. cbn [callback].
  destruct (on_entry e st) as [st' | st'] eqn:Hstep; [| reflexivity].
  rewrite (on_entry_again e st st' Hstep). reflexivity.
Qed.

Lemma on_entry_idempotent_witness :
  on_entry {| target := 5%nat; isIntersecting := true |}
    (final_state
       (on_entry {| target := 5%nat; isIntersecting := true |} sample_document))
  = Returned
      (final_state
         (on_entry {| target := 5%nat; isIntersecting := true |} sample_document)).
Proof.
  refine (proj1 (on_entry_idempotent
                   {| target := 5%nat; isIntersecting := true |} sample_document)
                _ _).
  reflexivity.
Defined.
